(** * MobileServiceSyncContext: a shallow embedding and its properties

    The sync context of the offline client (sdk/src/sync/MobileServiceSyncContext.js)
    is embedded as a state-and-error monad over
    - the context's own private variables ([store], the four managers, [isInitialized]),
    - a heap of JavaScript objects, so that [instance.id = uuid.v4()] is a
      mutation of the caller's object and not of a copy,
    - the state of the collaborators (local store, operation table, remote
      service, id generator), reached only through their interface, and
    - a chronological trace of every call made to a collaborator.

    A promise is modelled by its settled outcome; a synchronous [throw] inside
    a task or inside a [then] callback is a rejection of that promise. *)

From Stdlib Require Import ZArith String Ascii List Lia.
From stdpp Require Import base gmap strings list fin_maps pretty.

Open Scope string_scope.
Open Scope list_scope.

(** ** JavaScript values and the object heap *)

Definition loc := positive.

(** Numbers are integers here (ids and flags are all the code inspects);
    dates, arrays and functions are not represented. *)
Inductive value : Type :=
| VUndefined
| VNull
| VBool (b : bool)
| VNum (n : Z)
| VStr (s : string)
| VRef (l : loc).

#[global] Instance value_eq_dec : EqDecision value.
Proof. solve_decision. Defined.

#[global] Instance value_inhabited : Inhabited value := populate VUndefined.

#[global] Instance value_countable : Countable value.
Proof.
  refine (inj_countable'
    (fun v => match v with
              | VUndefined => inl (inl (inl tt))
              | VNull => inl (inl (inr tt))
              | VBool b => inl (inr (inl b))
              | VNum n => inl (inr (inr n))
              | VStr s => inr (inl s)
              | VRef l => inr (inr l)
              end)
    (fun x => match x with
              | inl (inl (inl _)) => VUndefined
              | inl (inl (inr _)) => VNull
              | inl (inr (inl b)) => VBool b
              | inl (inr (inr n)) => VNum n
              | inr (inl s) => VStr s
              | inr (inr l) => VRef l
              end) _).
  by intros [].
Defined.

Abbreviation object := (gmap string value).
Abbreviation heap := (gmap loc (gmap string value)).

(** [!v] is [negb (truthy v)]. *)
Definition truthy (v : value) : bool :=
  match v with
  | VUndefined | VNull => false
  | VBool b => b
  | VNum n => negb (Z.eqb n 0%Z)
  | VStr s => negb (String.eqb s "")
  | VRef _ => true
  end.

Definition fields (h : heap) (l : loc) : object := default ∅ (h !! l).

(** [v.k] for a [v] that is neither null nor undefined. *)
Definition property (h : heap) (v : value) (k : string) : value :=
  match v with
  | VRef l => default VUndefined (fields h l !! k)
  | _ => VUndefined
  end.

(** ** Errors and settled promises *)

Inductive error : Type :=
| UsedBeforeInitialized
    (* 'MobileServiceSyncContext is being used before it is initialized' *)
| StoreNotSet
    (* 'MobileServiceSyncContext not initialized' *)
| RecordExists (id tableName : value)
    (* 'Record with ID ' + id + ' already exists in the table ' + tableName *)
| Invalid (check name : string)
    (* thrown by a Validate.* check *)
| TypeError (what : string)
    (* property access or method call on null / undefined *)
| External (e : value).
    (* thrown or rejected by a collaborator *)

#[global] Instance error_eq_dec : EqDecision error.
Proof. solve_decision. Defined.

Inductive outcome (A : Type) : Type :=
| Resolved (a : A)
| Rejected (e : error).
Arguments Resolved {A} a.
Arguments Rejected {A} e.

Definition is_validation_error (e : error) : bool :=
  match e with Invalid _ _ => true | _ => false end.

(** ** Utilities/Extensions ([_]) and Utilities/Validate *)

Module Ext.
(** Modelled from the spec: Utilities/Extensions is not among the sources.
    [_.isNull] is the test for "absent": null or undefined (the spec's
    "assigns an id if absent"). *)
Definition isNull (v : value) : bool :=
  match v with VUndefined | VNull => true | _ => false end.
End Ext.

Module Validate.
(** Modelled from the spec: Utilities/Validate is not among the sources
    (the spec only says that malformed table names, ids and query arguments
    fail with a validation error).  Each check has the meaning of its name
    and throws [Invalid check name] when it fails.  The type checks let
    null and undefined through: the context always pairs them with
    [notNull] / [notNullOrEmpty], which would otherwise be redundant. *)
Definition check (ok : bool) (which name : string) : outcome unit :=
  if ok then Resolved tt else Rejected (Invalid which name).

(** Modelled from the spec: [Validate.notNull], null and undefined fail. *)
Definition notNull (v : value) (name : string) : outcome unit :=
  check (negb (Ext.isNull v)) "notNull" name.

(** Modelled from the spec: [Validate.isString], anything that is present and
    not a string fails. *)
Definition isString (v : value) (name : string) : outcome unit :=
  check (match v with VStr _ => true | _ => Ext.isNull v end) "isString" name.

(** Modelled from the spec: [Validate.notNullOrEmpty], null, undefined and
    the empty string fail. *)
Definition notNullOrEmpty (v : value) (name : string) : outcome unit :=
  check (match v with VStr s => negb (String.eqb s "") | _ => negb (Ext.isNull v) end)
        "notNullOrEmpty" name.

(** Modelled from the spec: [Validate.isObject], anything that is present
    and not an object fails. *)
Definition isObject (v : value) (name : string) : outcome unit :=
  check (match v with VRef _ => true | _ => Ext.isNull v end) "isObject" name.

(** Modelled from the spec: [Validate.isBool], everything but a boolean
    fails. *)
Definition isBool (v : value) (name : string) : outcome unit :=
  check (match v with VBool _ => true | _ => false end) "isBool" name.

(** Modelled from the spec: what [Validate.isValidId] accepts.  An id is
    valid unless it is null, undefined, zero or the empty string. *)
Definition validId (v : value) : bool :=
  match v with
  | VUndefined | VNull => false
  | VNum n => negb (Z.eqb n 0%Z)
  | VStr s => negb (String.eqb s "")
  | VBool _ | VRef _ => true
  end.

(** Modelled from the spec: [Validate.isValidId]. *)
Definition isValidId (v : value) (name : string) : outcome unit :=
  check (validId v) "isValidId" name.
End Validate.

(** What the context's checks accept, as predicates on the arguments. *)
Definition valid_table_name (t : value) : bool :=
  match t with VStr s => negb (String.eqb s "") | _ => false end.

Definition is_object (v : value) : bool :=
  match v with VRef _ => true | _ => false end.

Definition valid_query (q : value) : bool := is_object q.

Definition valid_force_flag (f : value) : bool :=
  match f with VUndefined | VNull | VBool _ => true | _ => false end.

(** ** Collaborators *)

(** The three logged actions, 'insert', 'update' and 'delete'. *)
Inductive action : Type := Insert | Update | Delete.

#[global] Instance action_eq_dec : EqDecision action.
Proof. solve_decision. Defined.

(** An entry of the array handed to [store.executeBatch]:
    [{action: 'upsert', tableName, data}], [{action: 'delete', tableName, id}]
    or whatever [getLoggingOperation] resolved with. *)
Inductive batch_entry (L : Type) : Type :=
| BUpsert (tableName data : value)
| BDelete (tableName id : value)
| BLogging (op : L).
Arguments BUpsert {L} tableName data.
Arguments BDelete {L} tableName id.
Arguments BLogging {L} op.

(** Everything the context requires: the id generator, the manager
    factories and methods, and the methods of the store object.  They read
    the heap but own their state ([world]); [lookup] and [read] are the
    store's read primitives and return a result only. *)
Class Collaborators : Type := {
  world : Type;
  handle : Type;
  logging : Type;
  uuid_v4 : world -> string * world;
  createOperationTableManager : value -> outcome handle;
  operationTableManager_initialize :
    handle -> value -> heap -> world -> outcome unit * world;
  getLoggingOperation :
    handle -> value -> action -> value -> heap -> world -> outcome logging * world;
  createPullManager : value -> value -> option handle -> outcome handle;
  createPushManager : value -> value -> option handle -> outcome handle;
  createPurgeManager : value -> outcome handle;
  pullManager_initialize : handle -> heap -> world -> outcome unit * world;
  pullManager_pull :
    handle -> value -> value -> value -> heap -> world -> outcome value * world;
  pushManager_push : handle -> value -> heap -> world -> outcome value * world;
  purgeManager_purge :
    handle -> value -> value -> heap -> world -> outcome value * world;
  store_lookup : value -> value -> value -> value -> heap -> world -> outcome value;
  store_read : value -> value -> heap -> world -> outcome value;
  store_executeBatch :
    value -> list (batch_entry logging) -> heap -> world -> outcome value * world
}.

(** One entry per call made to a collaborator, in the order of the calls. *)
Inductive event (L : Type) : Type :=
| EvUuid (id : string)
| EvCreateOperationTableManager (localStore : value)
| EvOperationTableInitialize (localStore : value)
| EvCreatePullManager (store : value)
| EvCreatePushManager (store : value)
| EvCreatePurgeManager (store : value)
| EvPullInitialize
| EvStoreLookup (tableName id suppressRecordNotFoundError : value)
| EvStoreRead (query : value)
| EvGetLoggingOperation (tableName : value) (a : action) (instance : value)
| EvExecuteBatch (batch : list (batch_entry L))
| EvPull (query queryId settings : value)
| EvPush (pushHandler : value)
| EvPurge (query forcePurge : value).
Arguments EvUuid {L} id.
Arguments EvCreateOperationTableManager {L} localStore.
Arguments EvOperationTableInitialize {L} localStore.
Arguments EvCreatePullManager {L} store.
Arguments EvCreatePushManager {L} store.
Arguments EvCreatePurgeManager {L} store.
Arguments EvPullInitialize {L}.
Arguments EvStoreLookup {L} tableName id suppressRecordNotFoundError.
Arguments EvStoreRead {L} query.
Arguments EvGetLoggingOperation {L} tableName a instance.
Arguments EvExecuteBatch {L} batch.
Arguments EvPull {L} query queryId settings.
Arguments EvPush {L} pushHandler.
Arguments EvPurge {L} query forcePurge.

Definition is_store_write {L} (e : event L) : bool :=
  match e with EvExecuteBatch _ => true | _ => false end.

Definition is_logging_computation {L} (e : event L) : bool :=
  match e with EvGetLoggingOperation _ _ _ => true | _ => false end.

Module taskRunner.
(** Modelled from the spec: Utilities/taskRunner is not among the sources.
    "run(unitOfWork) ... returns a deferred result that settles with that
    work's outcome"; calls are taken one at a time, so the queueing itself
    leaves no mark on a single call. *)
Definition run {T : Type} (task : T) : T := task.
End taskRunner.

Module Platform.
(** Modelled from the spec: Platform is not among the sources.
    [Platform.async(f)()] is the promise settled by [f]'s callback, or
    rejected with what [f] throws. *)
Definition async {T : Type} (body : T) : T := body.
End Platform.

Section Monad.
Context `{C : Collaborators}.

(** The private variables of one [MobileServiceSyncContext], and the
    [pushHandler] property its user may set on it. *)
Record context : Type := mkContext {
  client : value;
  store : value;
  operationTableManager : option handle;
  pullManager : option handle;
  pushManager : option handle;
  purgeManager : option handle;
  isInitialized : bool;
  pushHandler : value
}.

Record state : Type := mkState {
  ctx : context;
  objects : heap;
  ext : world;
  trace : list (event logging)
}.

Definition M (A : Type) : Type := state -> outcome A * state.

Definition ret {A} (a : A) : M A := fun s => (Resolved a, s).
Definition throw {A} (e : error) : M A := fun s => (Rejected e, s).
Definition bind {A B} (m : M A) (k : A -> M B) : M B :=
  fun s =>
    match m s with
    | (Resolved a, s') => k a s'
    | (Rejected e, s') => (Rejected e, s')
    end.

Definition lift {A} (o : outcome A) : M A := fun s => (o, s).
Definition get_ctx : M context := fun s => (Resolved (ctx s), s).
Definition modify_ctx (f : context -> context) : M unit :=
  fun s => (Resolved tt, mkState (f (ctx s)) (objects s) (ext s) (trace s)).
(** A call that may change the collaborators' state. *)
Definition call {A} (e : event logging)
    (f : heap -> world -> outcome A * world) : M A :=
  fun s =>
    let r := f (objects s) (ext s) in
    (fst r, mkState (ctx s) (objects s) (snd r) (trace s ++ [e])).

(** A call to one of the store's read primitives. *)
Definition ask {A} (e : event logging) (f : heap -> world -> outcome A) : M A :=
  fun s => (f (objects s) (ext s),
            mkState (ctx s) (objects s) (ext s) (trace s ++ [e])).

(** [uuid.v4()] *)
Definition call_uuid : M string :=
  fun s =>
    let r := uuid_v4 (ext s) in
    (Resolved (fst r),
     mkState (ctx s) (objects s) (snd r) (trace s ++ [EvUuid (fst r)])).

(** A factory call: a result or an exception, no state of its own. *)
Definition make {A} (e : event logging) (r : outcome A) : M A :=
  fun s => (r, mkState (ctx s) (objects s) (ext s) (trace s ++ [e])).

(** [o.m(...)] where [o] is one of the manager variables. *)
Definition the_manager (name : string) (o : option handle) : M handle :=
  match o with
  | Some m => ret m
  | None => throw (TypeError name)
  end.

(** [v.id] *)
Definition get_id (v : value) : M value :=
  fun s =>
    match v with
    | VRef l => (Resolved (default VUndefined (fields (objects s) l !! "id")), s)
    | VUndefined | VNull => (Rejected (TypeError "id"), s)
    | _ => (Resolved VUndefined, s)
    end.

(** [v.id = x]; on a primitive the assignment is dropped. *)
Definition set_id (v x : value) : M unit :=
  fun s =>
    match v with
    | VRef l =>
        (Resolved tt,
         mkState (ctx s)
                 (<[l := <["id" := x]> (fields (objects s) l)]> (objects s))
                 (ext s) (trace s))
    | VUndefined | VNull => (Rejected (TypeError "id"), s)
    | _ => (Resolved tt, s)
    end.
End Monad.

Declare Scope sync_scope.
Delimit Scope sync_scope with sync.
Notation "x <- m ;; k" := (bind m (fun x => k))
  (at level 100, m at next level, right associativity) : sync_scope.
Notation "m ;; k" := (bind m (fun _ => k))
  (at level 100, right associativity) : sync_scope.
Open Scope sync_scope.

(** ** The sync context *)

Section SyncContext.
Context `{C : Collaborators}.

(** [new MobileServiceSyncContext(client)] *)
Definition new_context (client : value) : context :=
  mkContext client VUndefined None None None None false VUndefined.

Definition MobileServiceSyncContext (client : value) : outcome context :=
  match Validate.notNull client "client" with
  | Rejected e => Rejected e
  | Resolved _ => Resolved (new_context client)
  end.

(** Throws an error if the sync context is not initialized *)
Definition validateInitialization : M unit :=
  c <- get_ctx ;;
  if isInitialized c then ret tt else throw UsedBeforeInitialized.

Definition set_operationTableManager (m : handle) (c : context) : context :=
  mkContext (client c) (store c) (Some m) (pullManager c) (pushManager c)
            (purgeManager c) (isInitialized c) (pushHandler c).
Definition set_store (v : value) (c : context) : context :=
  mkContext (client c) v (operationTableManager c) (pullManager c)
            (pushManager c) (purgeManager c) (isInitialized c) (pushHandler c).
Definition set_pullManager (m : handle) (c : context) : context :=
  mkContext (client c) (store c) (operationTableManager c) (Some m)
            (pushManager c) (purgeManager c) (isInitialized c) (pushHandler c).
Definition set_pushManager (m : handle) (c : context) : context :=
  mkContext (client c) (store c) (operationTableManager c) (pullManager c)
            (Some m) (purgeManager c) (isInitialized c) (pushHandler c).
Definition set_purgeManager (m : handle) (c : context) : context :=
  mkContext (client c) (store c) (operationTableManager c) (pullManager c)
            (pushManager c) (Some m) (isInitialized c) (pushHandler c).
Definition set_isInitialized (b : bool) (c : context) : context :=
  mkContext (client c) (store c) (operationTableManager c) (pullManager c)
            (pushManager c) (purgeManager c) b (pushHandler c).

Definition initialize (localStore : value) : M value :=
  opManager <- Platform.async (
    lift (Validate.isObject localStore "") ;;
    lift (Validate.notNull localStore "") ;;
    make (EvCreateOperationTableManager localStore)
         (createOperationTableManager localStore)) ;;
  (* then *)
  modify_ctx (set_operationTableManager opManager) ;;
  c <- get_ctx ;;
  m <- the_manager "operationTableManager" (operationTableManager c) ;;
  call (EvOperationTableInitialize localStore)
       (operationTableManager_initialize m localStore) ;;
  (* then *)
  modify_ctx (set_store localStore) ;;
  c <- get_ctx ;;
  pull <- make (EvCreatePullManager (store c))
               (createPullManager (client c) (store c) (operationTableManager c)) ;;
  modify_ctx (set_pullManager pull) ;;
  c <- get_ctx ;;
  push <- make (EvCreatePushManager (store c))
               (createPushManager (client c) (store c) (operationTableManager c)) ;;
  modify_ctx (set_pushManager push) ;;
  c <- get_ctx ;;
  purge <- make (EvCreatePurgeManager (store c)) (createPurgeManager (store c)) ;;
  modify_ctx (set_purgeManager purge) ;;
  (* then *)
  c <- get_ctx ;;
  m <- the_manager "pullManager" (pullManager c) ;;
  call EvPullInitialize (pullManager_initialize m) ;;
  (* then *)
  modify_ctx (set_isInitialized true) ;;
  ret VUndefined.

(** Performs upsert and logs the action in the operation table.
    Validates parameters. *)
Definition upsertWithLogging
    (tableName instance : value) (a : action) (shouldOverwrite : value) : M value :=
  lift (Validate.isString tableName "tableName") ;;
  lift (Validate.notNullOrEmpty tableName "tableName") ;;
  lift (Validate.notNull instance "instance") ;;
  id <- get_id instance ;;
  lift (Validate.isValidId id "instance.id") ;;
  c <- get_ctx ;;
  (if negb (truthy (store c)) then throw StoreNotSet else ret tt) ;;
  id <- get_id instance ;;
  existingRecord <-
    ask (EvStoreLookup tableName id (VBool true))
        (store_lookup (store c) tableName id (VBool true)) ;;
  (* then *)
  (if truthy existingRecord && negb (truthy shouldOverwrite)
   then existingId <- get_id existingRecord ;;
        throw (RecordExists existingId tableName)
   else ret tt) ;;
  (* then *)
  c <- get_ctx ;;
  m <- the_manager "operationTableManager" (operationTableManager c) ;;
  loggingOperation <-
    call (EvGetLoggingOperation tableName a instance)
         (getLoggingOperation m tableName a instance) ;;
  (* then *)
  c <- get_ctx ;;
  (let batch := [BUpsert tableName instance; BLogging loggingOperation] in
   call (EvExecuteBatch batch) (store_executeBatch (store c) batch)) ;;
  (* then *)
  ret instance.

Definition insert (tableName instance : value) : M value :=
  taskRunner.run (
    validateInitialization ;;
    (* Generate an ID if it is not set already *)
    id <- get_id instance ;;
    (if Ext.isNull id
     then fresh <- call_uuid ;; set_id instance (VStr fresh)
     else ret tt) ;;
    upsertWithLogging tableName instance Insert VUndefined).

Definition update (tableName instance : value) : M value :=
  taskRunner.run (
    validateInitialization ;;
    upsertWithLogging tableName instance Update (VBool true) (* shouldOverwrite *)).

Definition lookup (tableName id suppressRecordNotFoundError : value) : M value :=
  Platform.async (
    validateInitialization ;;
    lift (Validate.isString tableName "tableName") ;;
    lift (Validate.notNullOrEmpty tableName "tableName") ;;
    lift (Validate.isValidId id "id") ;;
    c <- get_ctx ;;
    if negb (truthy (store c)) then throw StoreNotSet else ret tt) ;;
  (* then *)
  c <- get_ctx ;;
  ask (EvStoreLookup tableName id suppressRecordNotFoundError)
      (store_lookup (store c) tableName id suppressRecordNotFoundError).

Definition read (query : value) : M value :=
  Platform.async (ret tt) ;;
  (* then *)
  validateInitialization ;;
  lift (Validate.notNull query "query") ;;
  lift (Validate.isObject query "query") ;;
  c <- get_ctx ;;
  (if Ext.isNull (store c) then throw (TypeError "read") else ret tt) ;;
  ask (EvStoreRead query) (store_read (store c) query).

Definition del (tableName instance : value) : M value :=
  taskRunner.run (
    validateInitialization ;;
    lift (Validate.isString tableName "tableName") ;;
    lift (Validate.notNullOrEmpty tableName "tableName") ;;
    lift (Validate.notNull instance "") ;;
    id <- get_id instance ;;
    lift (Validate.isValidId id "") ;;
    c <- get_ctx ;;
    (if negb (truthy (store c)) then throw StoreNotSet else ret tt) ;;
    m <- the_manager "operationTableManager" (operationTableManager c) ;;
    loggingOperation <-
      call (EvGetLoggingOperation tableName Delete instance)
           (getLoggingOperation m tableName Delete instance) ;;
    (* then *)
    c <- get_ctx ;;
    id <- get_id instance ;;
    (let batch := [BDelete tableName id; BLogging loggingOperation] in
     call (EvExecuteBatch batch) (store_executeBatch (store c) batch))).

Definition pull (query queryId settings : value) : M value :=
  taskRunner.run (
    validateInitialization ;;
    c <- get_ctx ;;
    m <- the_manager "pullManager" (pullManager c) ;;
    call (EvPull query queryId settings) (pullManager_pull m query queryId settings)).

Definition push : M value :=
  taskRunner.run (
    validateInitialization ;;
    c <- get_ctx ;;
    m <- the_manager "pushManager" (pushManager c) ;;
    call (EvPush (pushHandler c)) (pushManager_push m (pushHandler c))).

Definition purge (query forcePurge : value) : M value :=
  taskRunner.run (
    lift (Validate.isObject query "query") ;;
    lift (Validate.notNull query "query") ;;
    (if negb (Ext.isNull forcePurge)
     then lift (Validate.isBool forcePurge "forcePurge")
     else ret tt) ;;
    validateInitialization ;;
    c <- get_ctx ;;
    m <- the_manager "purgeManager" (purgeManager c) ;;
    call (EvPurge query forcePurge) (purgeManager_purge m query forcePurge)).

(** The public operations other than [initialize], with their arguments. *)
Inductive invocation : Type :=
| CallInsert (tableName instance : value)
| CallUpdate (tableName instance : value)
| CallDel (tableName instance : value)
| CallLookup (tableName id suppressRecordNotFoundError : value)
| CallRead (query : value)
| CallPull (query queryId settings : value)
| CallPush
| CallPurge (query forcePurge : value).

Definition invoke (i : invocation) : M value :=
  match i with
  | CallInsert t x => insert t x
  | CallUpdate t x => update t x
  | CallDel t x => del t x
  | CallLookup t id f => lookup t id f
  | CallRead q => read q
  | CallPull q qid st => pull q qid st
  | CallPush => push
  | CallPurge q f => purge q f
  end.

(** Every call a user can make on a context. *)
Inductive user_call : Type :=
| Initialize (localStore : value)
| Operation (i : invocation)
| SetPushHandler (h : value).

Definition set_pushHandler (h : value) (c : context) : context :=
  mkContext (client c) (store c) (operationTableManager c) (pullManager c)
            (pushManager c) (purgeManager c) (isInitialized c) h.

Definition perform (u : user_call) : M value :=
  match u with
  | Initialize localStore => initialize localStore
  | Operation i => invoke i
  | SetPushHandler h => modify_ctx (set_pushHandler h) ;; ret VUndefined
  end.

(** The states a context goes through, from its construction on. *)
Inductive reachable : state -> Prop :=
| reachable_new client c h w :
    MobileServiceSyncContext client = Resolved c ->
    reachable (mkState c h w [])
| reachable_step s u :
    reachable s -> reachable (snd (perform u s))
| reachable_world s h w :
    (* between two calls the caller and the collaborators may do anything
       to the objects and to their own state *)
    reachable s -> reachable (mkState (ctx s) h w (trace s)).

Definition defined {A} (o : option A) : bool :=
  match o with Some _ => true | None => false end.

(** What [isInitialized] stands for: the store and the four managers are in
    place. *)
Definition ready (c : context) : bool :=
  implb (isInitialized c)
        (truthy (store c) && defined (operationTableManager c) &&
         defined (pullManager c) && defined (pushManager c) &&
         defined (purgeManager c)).

Definition valid_purge_arguments (query forcePurge : value) : bool :=
  valid_query query && valid_force_flag forcePurge.

(** The calls whose arguments are refused before initialization is looked at. *)
Definition refused_on_arguments (i : invocation) : bool :=
  match i with
  | CallPurge q f => negb (valid_purge_arguments q f)
  | _ => false
  end.

(** [instance.id] is null or absent. *)
Definition lacks_id (h : heap) (instance : value) : bool :=
  Ext.isNull (property h instance "id").

(** [s'] differs from [s] by calls that neither write to the store nor
    compute a logging operation, and by nothing else. *)
Definition read_only_event (e : event logging) : bool :=
  negb (is_store_write e) && negb (is_logging_computation e).

Definition quiet (s s' : state) : Prop :=
  ctx s' = ctx s /\ objects s' = objects s /\ ext s' = ext s /\
  exists new, trace s' = trace s ++ new /\ forallb read_only_event new = true.

(** The state right after [instance.id = uuid.v4()] on the object at [l]. *)
Definition with_generated_id (l : loc) (s : state) : state :=
  mkState (ctx s)
          (<[l := <["id" := VStr (fst (uuid_v4 (ext s)))]> (fields (objects s) l)]>
             (objects s))
          (snd (uuid_v4 (ext s)))
          (trace s ++ [EvUuid (fst (uuid_v4 (ext s)))]).

(** A computation every step of which stays within a relation on states. *)
Definition respects {A} (R : state -> state -> Prop) (m : M A) : Prop :=
  forall s, R s (snd (m s)).

Definition same_context (s s' : state) : Prop := ctx s' = ctx s.

(** Calls that preserve a property of the collaborators' state. *)
Definition keeps (P : world -> Prop) (s s' : state) : Prop :=
  P (ext s) -> P (ext s').

(** Only calls to collaborators: the context and the objects stay, the trace
    grows. *)
Definition only_calls (s s' : state) : Prop :=
  ctx s' = ctx s /\ objects s' = objects s /\
  exists new, trace s' = trace s ++ new.

(** The values [isInitialized] takes along a sequence of calls. *)
Fixpoint flag_history (us : list user_call) (s : state) : list bool :=
  isInitialized (ctx s) ::
  match us with
  | [] => []
  | u :: rest => flag_history rest (snd (perform u s))
  end.

(** How many times a history goes from false to true. *)
Fixpoint rises (flags : list bool) : nat :=
  match flags with
  | false :: ((true :: _) as rest) => S (rises rest)
  | _ :: rest => rises rest
  | [] => 0
  end.
End SyncContext.

(** ** The collaborators, as the specification describes them *)

Module Model.
(** Modelled from the spec: the operation table manager (sync/operations),
    the push, pull and purge managers (sync/push, sync/pull, sync/purge),
    the local store and node-uuid are not among the sources.  What follows
    is the specification's data model (section 3), the action-merge rule
    (section 4.2), the push algorithm (section 4.4) against a transport that
    accepts every request, the purge rule (section 4.6) and the store
    interface (section 6), over an in-memory store that keeps the objects it
    is given. *)

(** Pending Operation: [{ tableName, recordId, action, logicalOrder }] *)
Record pending : Type := mkPending {
  tableName : value;
  recordId : value;
  pendingAction : action;
  logicalOrder : nat
}.

(** The logging entry computed for a local write. *)
Inductive log_entry : Type :=
| LogPut (p : pending)
| LogRemove (tableName recordId : value).

Inductive verb : Type := Create | Modify | Remove | Fetch.

(** A request as the transport sees it; [body] is the record as sent. *)
Record request : Type := mkRequest {
  method : verb;
  table : value;
  target : value;
  body : option object
}.

Record memory : Type := mkMemory {
  records : gmap (value * value) value;
  operations : list pending;
  nextOrder : nat;
  sent : list request;
  generated : nat
}.

Definition key (p : pending) : value * value := (tableName p, recordId p).

Definition concerns (t id : value) (p : pending) : bool :=
  bool_decide (tableName p = t) && bool_decide (recordId p = id).

(** At most one pending operation per [(tableName, recordId)]. *)
Definition one_per_record (log : list pending) : Prop := NoDup (List.map key log).

Definition one_pending_each (w : memory) : Prop := one_per_record (operations w).

Definition pending_for (t id : value) (log : list pending) : option pending :=
  List.find (concerns t id) log.

(** What becomes of a pending operation when a new write meets it. *)
Inductive merged : Type := Becomes (a : action) | Cancelled.

(** Modelled from the spec: the action-merge rule of section 4.2.  [None]
    is the collision of a re-insert, and stands for the pairs the
    specification leaves open as well; a repeated update collapses into the
    pending update. *)
Definition merge (existing new : action) : option merged :=
  match existing, new with
  | Insert, Update => Some (Becomes Insert)
  | Insert, Delete => Some Cancelled
  | Update, Delete => Some (Becomes Delete)
  | Update, Update => Some (Becomes Update)
  | Update, Insert | Delete, Insert => None
  | Insert, Insert | Delete, Update | Delete, Delete => None
  end.

(** Modelled from the spec: [getLoggingOperation(tableName, action, record)]
    computes the entry to write with the data; it writes nothing itself. *)
Definition loggingOperation
    (_ : value) (t : value) (a : action) (instance : value)
    (h : heap) (w : memory) : outcome log_entry * memory :=
  let id := property h instance "id" in
  match pending_for t id (operations w) with
  | None => (Resolved (LogPut (mkPending t id a (nextOrder w))), w)
  | Some p =>
      match merge (pendingAction p) a with
      | Some (Becomes a') =>
          (Resolved (LogPut (mkPending t id a' (logicalOrder p))), w)
      | Some Cancelled => (Resolved (LogRemove t id), w)
      | None => (Rejected (External (VStr "operation collision")), w)
      end
  end.

(** Modelled from the spec: writing a pending operation replaces the entry
    of its record in place, or appends a new one. *)
Fixpoint put (p : pending) (log : list pending) : list pending :=
  match log with
  | [] => [p]
  | q :: rest =>
      if concerns (tableName p) (recordId p) q then p :: rest
      else q :: put p rest
  end.

Definition drop (t id : value) (log : list pending) : list pending :=
  List.filter (fun q => negb (concerns t id q)) log.

Definition apply_entry (h : heap) (e : batch_entry log_entry) (w : memory)
    : option memory :=
  match e with
  | BUpsert t data =>
      match data with
      | VRef _ =>
          Some (mkMemory (<[(t, property h data "id") := data]> (records w))
                         (operations w) (nextOrder w) (sent w) (generated w))
      | _ => None
      end
  | BDelete t id =>
      Some (mkMemory (delete (t, id) (records w))
                     (operations w) (nextOrder w) (sent w) (generated w))
  | BLogging (LogPut p) =>
      Some (mkMemory (records w) (put p (operations w))
                     (Nat.max (nextOrder w) (S (logicalOrder p)))
                     (sent w) (generated w))
  | BLogging (LogRemove t id) =>
      Some (mkMemory (records w) (drop t id (operations w))
                     (nextOrder w) (sent w) (generated w))
  end.

Fixpoint apply_batch (h : heap) (b : list (batch_entry log_entry)) (w : memory)
    : option memory :=
  match b with
  | [] => Some w
  | e :: rest =>
      match apply_entry h e w with
      | Some w' => apply_batch h rest w'
      | None => None
      end
  end.

(** Modelled from the spec: [store.executeBatch], all entries or none. *)
Definition executeBatch (_ : value) (b : list (batch_entry log_entry))
    (h : heap) (w : memory) : outcome value * memory :=
  match apply_batch h b w with
  | Some w' => (Resolved VUndefined, w')
  | None => (Rejected (External (VStr "batch failed")), w)
  end.

(** Modelled from the spec: [store.lookup(table, id, suppressNotFound)], the
    record, or undefined when suppressed, or the record-not-found error. *)
Definition lookup (_ : value) (t id suppress : value) (h : heap) (w : memory)
    : outcome value :=
  match records w !! (t, id) with
  | Some r => Resolved r
  | None =>
      if truthy suppress then Resolved VUndefined
      else Rejected (External (VStr "RecordNotFoundError"))
  end.

(** Modelled from the spec: [store.read(query)].  The query object names its
    table.  Arrays are not represented: a read resolves with the number of
    records of that table. *)
Definition read (_ : value) (query : value) (h : heap) (w : memory)
    : outcome value :=
  let t := property h query "table" in
  Resolved (VNum (Z.of_nat (size (filter (fun kv => fst (fst kv) = t) (records w))))).

Definition about (t id : value) (r : request) : bool :=
  bool_decide (table r = t) && bool_decide (target r = id).

Definition verb_of (a : action) : verb :=
  match a with Insert => Create | Update => Modify | Delete => Remove end.

Definition snapshot (h : heap) (v : value) : option object :=
  match v with VRef l => Some (fields h l) | _ => None end.

(** Modelled from the spec: the request that replays one pending operation,
    [{insert -> create, update -> modify, delete -> remove}], with the record
    as the store holds it now. *)
Definition replay (h : heap) (w : memory) (p : pending) : request :=
  mkRequest (verb_of (pendingAction p)) (tableName p) (recordId p)
            (match pendingAction p with
             | Delete => None
             | _ => match records w !! (tableName p, recordId p) with
                    | Some r => snapshot h r
                    | None => None
                    end
             end).

(** Modelled from the spec: push against a transport that accepts every
    request; each pending operation is replayed in log order and retired. *)
Definition push (_ : value) (pushHandler : value) (h : heap) (w : memory)
    : outcome value * memory :=
  (Resolved VUndefined,
   mkMemory (records w) [] (nextOrder w)
            (sent w ++ List.map (replay h w) (operations w)) (generated w)).

(** Modelled from the spec: pull against a remote table with nothing to
    return. *)
Definition pull (_ : value) (query queryId settings : value)
    (h : heap) (w : memory) : outcome value * memory :=
  (Resolved VUndefined,
   mkMemory (records w) (operations w) (nextOrder w)
            (sent w ++ [mkRequest Fetch (property h query "table") queryId None])
            (generated w)).

(** Modelled from the spec: purge of a whole table (the query's filter is not
    interpreted); a regular purge fails when the table has pending
    operations. *)
Definition purge (_ : value) (query forcePurge : value)
    (h : heap) (w : memory) : outcome value * memory :=
  let t := property h query "table" in
  let busy := existsb (fun p => bool_decide (tableName p = t)) (operations w) in
  if busy && negb (truthy forcePurge)
  then (Rejected (External (VStr "PurgeConflictError")), w)
  else (Resolved VUndefined,
        mkMemory (filter (fun kv => fst (fst kv) <> t) (records w))
                 (List.filter (fun p => negb (bool_decide (tableName p = t)))
                              (operations w))
                 (nextOrder w) (sent w) (generated w)).

(** Modelled from the spec: [uuid.v4()], a different id at every call. *)
Definition v4 (w : memory) : string * memory :=
  ("uuid-" +:+ pretty (generated w),
   mkMemory (records w) (operations w) (nextOrder w) (sent w) (S (generated w))).

#[global] Instance collaborators : Collaborators := {|
  world := memory;
  handle := value;
  logging := log_entry;
  uuid_v4 := v4;
  createOperationTableManager := fun localStore => Resolved localStore;
  operationTableManager_initialize := fun _ _ _ w => (Resolved tt, w);
  getLoggingOperation := loggingOperation;
  createPullManager := fun _ st _ => Resolved st;
  createPushManager := fun _ st _ => Resolved st;
  createPurgeManager := fun st => Resolved st;
  pullManager_initialize := fun _ _ w => (Resolved tt, w);
  pullManager_pull := pull;
  pushManager_push := push;
  purgeManager_purge := purge;
  store_lookup := lookup;
  store_read := read;
  store_executeBatch := executeBatch
|}.

Definition empty : memory := mkMemory ∅ [] 0 [] 0.
End Model.

(** ** A small application: one table, a few objects *)

Module App.

Definition todo : value := VStr "todo".
Definition localStore : value := VRef 1%positive.
Definition theClient : value := VRef 2%positive.

(** [{text: 'a'}], [{id: 'uuid-0', text: 'b'}], [{id: 'k1', text: 'c'}]
    and a query on the table. *)
Definition item_a : value := VRef 3%positive.
Definition item_b : value := VRef 4%positive.
Definition item_c : value := VRef 5%positive.
Definition query : value := VRef 6%positive.

Definition some_objects : heap :=
  <[1%positive := ∅]>
  (<[2%positive := ∅]>
  (<[3%positive := {["text" := VStr "a"]}]>
  (<[4%positive := <["id" := VStr "uuid-0"]> {["text" := VStr "b"]}]>
  (<[5%positive := <["id" := VStr "k1"]> {["text" := VStr "c"]}]>
  (<[6%positive := {["table" := todo]}]> ∅))))).

(** Just constructed. *)
Definition fresh : state :=
  mkState (new_context theClient) some_objects Model.empty [].

(** After [initialize(localStore)]. *)
Definition started : state := snd (initialize localStore fresh).

(** After [insert('todo', {text: 'a'})]. *)
Definition inserted : state := snd (insert todo item_a started).

(** Then [update('todo', {id: 'uuid-0', text: 'b'})]. *)
Definition updated : state := snd (update todo item_b inserted).

(** Then [push()]. *)
Definition pushed : state := snd (push updated).
End App.

(** ** Further vocabulary *)

Section Vocabulary.
Context `{C : Collaborators}.









End Vocabulary.

(** ** MobileServiceLogin *)

Module Login.

(** An argument of the login functions: a value, or a function (a callback),
    which [value] does not represent. *)
Inductive arg : Type :=
| Data (v : value)
| Fn (f : nat).

#[global] Instance arg_eq_dec : EqDecision arg.
Proof. solve_decision. Defined.

Definition null : arg := Data VNull.

Definition is_function (a : arg) : bool :=
  match a with Fn _ => true | Data _ => false end.

Definition truthy_arg (a : arg) : bool :=
  match a with Fn _ => true | Data v => truthy v end.

Module Extensions.
(** Modelled from the spec: Utilities/Extensions is not among the sources;
    [_.isNull] is null or undefined. *)
Definition isNull (a : arg) : bool :=
  match a with Data v => Ext.isNull v | Fn _ => false end.

(** Modelled from the spec: [_.isBool], a boolean and nothing else. *)
Definition isBool (a : arg) : bool :=
  match a with Data (VBool _) => true | _ => false end.

(** Modelled from the spec: [_.isString]; like the checks of [Validate] it
    lets null and undefined through (the login code tests [_.isNull] beside
    it). *)
Definition isString (a : arg) : bool :=
  match a with Data (VStr _) => true | Data v => Ext.isNull v | Fn _ => false end.

(** Modelled from the spec: [_.isObject], with the same convention. *)
Definition isObject (a : arg) : bool :=
  match a with Data (VRef _) => true | Data v => Ext.isNull v | Fn _ => false end.
End Extensions.

(** The checks of [Validate] on an argument; a function is present and is
    neither a string nor an object. *)
Definition notNull (a : arg) (name : string) : outcome unit :=
  match a with Data v => Validate.notNull v name | Fn _ => Resolved tt end.

Definition isString (a : arg) (name : string) : outcome unit :=
  match a with
  | Data v => Validate.isString v name
  | Fn _ => Rejected (Invalid "isString" name)
  end.

Definition isObject (a : arg) (name : string) : outcome unit :=
  match a with
  | Data v => Validate.isObject v name
  | Fn _ => Rejected (Invalid "isObject" name)
  end.

(** Only ever called after [isString], which has refused a function. *)
Definition notNullOrEmpty (a : arg) (name : string) : outcome unit :=
  match a with
  | Data v => Validate.notNullOrEmpty v name
  | Fn _ => Rejected (Invalid "notNullOrEmpty" name)
  end.

(** *** Strings: [split] and [toLowerCase]

    Strings are byte strings; the case mapping is that of ASCII. *)

Fixpoint split (sep : ascii) (s : string) : list string :=
  match s with
  | EmptyString => [EmptyString]
  | String c rest =>
      match split sep rest with
      | seg :: segs =>
          if Ascii.eqb c sep then EmptyString :: seg :: segs
          else String c seg :: segs
      | [] => []
      end
  end.

Definition lower (c : ascii) : ascii :=
  let n := nat_of_ascii c in
  if Nat.leb 65 n && Nat.leb n 90 then ascii_of_nat (n + 32) else c.

Fixpoint lowercase (s : string) : string :=
  match s with
  | EmptyString => EmptyString
  | String c rest => String (lower c) (lowercase rest)
  end.

Fixpoint occurrences (sep : ascii) (s : string) : nat :=
  match s with
  | EmptyString => 0
  | String c rest => (if Ascii.eqb c sep then 1 else 0) + occurrences sep rest
  end.

(** [value && _.isString(value) && value.split('.').length === 3], as the
    truth value the callers test. *)
Definition _isAuthToken (a : arg) : bool :=
  truthy_arg a && Extensions.isString a &&
  match a with
  | Data (VStr s) => Nat.eqb (length (split "."%char s)) 3
  | _ => false
  end.

(** *** The login object and what it sets in motion *)

(** The [parameters] handed on: the literal [{}] or a given value. *)
Inductive parameters : Type :=
| EmptyObject
| Given (a : arg).

(** The error a callback receives: a value (the one passed in, or a
    resource string, named by its key), or what was caught. *)
Inductive failure : Type :=
| Passed (v : value)
| Caught (e : error).

Definition no_failure (f : failure) : bool :=
  match f with Passed v => Ext.isNull v | Caught _ => false end.

Inductive login_event : Type :=
| EvCancel
    (* the cancel callback of the login in process was called *)
| EvTokenRequest (authenticationToken ignoreFilters callback : arg)
    (* client._request('POST', '.auth/login', {authenticationToken}, ...) *)
| EvProviderRequest (provider : string) (token : arg) (p : parameters)
                    (ignoreFilters callback : arg)
    (* client._request('POST', <url of provider and parameters>, token, ...) *)
| EvLoginControl (provider : string) (withEndUri : bool) (p : parameters)
                 (callback : arg)
    (* Platform.login(startUri, endUri, ...) *)
| EvCallback (callback : nat) (error : failure) (user : value).
    (* callback(error, user) *)

(** What a call of [Platform.login] comes back with: whether it has already
    called back, with an error and a token, and the cancel callback of its
    result, if it has one, given by what a call to it returns. *)
Record platform_result : Type := mkPlatformResult {
  completion : option (value * value);
  resultCancel : option bool
}.

(** Modelled from the spec: Platform's login control and [_.fromJson] are
    not among the sources; they are what an instance of this class says. *)
Class Platform : Type := {
  platform_login :
    string -> bool -> parameters -> heap -> platform_result * heap;
  fromJson : value -> heap -> outcome value * heap
}.

Section Flow.
Context `{P : Platform}.

(** The login object with the client's [currentUser]. *)
Record login_state : Type := mkLogin {
  loginObjects : heap;
  currentUser : value;
  ignoreFilters : arg;
  inProcess : bool;
  cancelCallback : option bool;
  happened : list login_event
}.

Definition L (A : Type) : Type := login_state -> outcome A * login_state.

Definition lret {A} (a : A) : L A := fun s => (Resolved a, s).
Definition lthrow {A} (e : error) : L A := fun s => (Rejected e, s).
Definition lbind {A B} (m : L A) (k : A -> L B) : L B :=
  fun s =>
    match m s with
    | (Resolved a, s') => k a s'
    | (Rejected e, s') => (Rejected e, s')
    end.
Definition llift {A} (o : outcome A) : L A := fun s => (o, s).
Definition lget : L login_state := fun s => (Resolved s, s).
Definition record (e : login_event) : L unit :=
  fun s => (Resolved tt,
            mkLogin (loginObjects s) (currentUser s) (ignoreFilters s)
                    (inProcess s) (cancelCallback s) (happened s ++ [e])).

(** [_loginState = { inProcess: b, cancelCallback: c }] *)
Definition set_loginState (b : bool) (c : option bool) : L unit :=
  fun s => (Resolved tt,
            mkLogin (loginObjects s) (currentUser s) (ignoreFilters s) b c
                    (happened s)).

(** [client.currentUser = v] *)
Definition set_currentUser (v : value) : L unit :=
  fun s => (Resolved tt,
            mkLogin (loginObjects s) v (ignoreFilters s) (inProcess s)
                    (cancelCallback s) (happened s)).

(** [v.k = x] *)
Definition set_property (v : value) (k : string) (x : value) : L unit :=
  fun s =>
    match v with
    | VRef l =>
        (Resolved tt,
         mkLogin (<[l := <[k := x]> (fields (loginObjects s) l)]> (loginObjects s))
                 (currentUser s) (ignoreFilters s) (inProcess s)
                 (cancelCallback s) (happened s))
    | VUndefined | VNull => (Rejected (TypeError k), s)
    | _ => (Resolved tt, s)
    end.

(** [a.toLowerCase()] *)
Definition toLowerCase (a : arg) : L arg :=
  match a with
  | Data (VStr s) => lret (Data (VStr (lowercase s)))
  | _ => lthrow (TypeError "toLowerCase")
  end.

(** [callback(error, user)] *)
Definition call_callback (callback : arg) (error : failure) (user : value) : L unit :=
  match callback with
  | Fn k => record (EvCallback k error user)
  | Data _ => lthrow (TypeError "callback")
  end.
End Flow.

Declare Scope login_scope.
Notation "x <- m ;; k" := (lbind m (fun x => k))
  (at level 100, m at next level, right associativity) : login_scope.
Notation "m ;; k" := (lbind m (fun _ => k))
  (at level 100, right associativity) : login_scope.
Local Open Scope login_scope.

Section Functions.
Context `{P : Platform}.

(** [new MobileServiceLogin(client, ignoreFilters)], for a client in the heap
    [h]. *)
Definition MobileServiceLogin (client : value) (ignoreFilters : arg) (h : heap)
    : outcome login_state :=
  (* Account for absent optional arguments *)
  let ignoreFilters :=
    if Extensions.isNull ignoreFilters then Data (VBool true) else ignoreFilters in
  match Validate.notNull client "" with
  | Rejected e => Rejected e
  | Resolved _ =>
      match Validate.isObject client "client" with
      | Rejected e => Rejected e
      | Resolved _ =>
          Resolved (mkLogin h (property h client "currentUser") ignoreFilters
                            false None [])
      end
  end.

Definition getLoginInProcess (s : login_state) : bool := inProcess s.

(** Handles the completion of the login and calls the user's callback with
    either a user or an error. *)
Definition onLoginComplete (error : failure) (token : value) (callback : arg)
    : L unit :=
  s <- lget ;;
  r <- (if no_failure error then
          (* Validate the token *)
          let h := loginObjects s in
          if Ext.isNull token
             || negb (Extensions.isObject (Data token))
             || negb (Extensions.isObject (Data (property h token "user")))
             || negb (Extensions.isString
                        (Data (property h token "authenticationToken")))
          then lret (Passed (VStr "MobileServiceLogin_InvalidResponseFormat"),
                     VNull)
          else
            (* Set the current user on the client and return it in the callback *)
            set_currentUser (property h token "user") ;;
            s <- lget ;;
            set_property (currentUser s) "mobileServiceAuthenticationToken"
                         (property h token "authenticationToken") ;;
            s <- lget ;;
            lret (error, currentUser s)
        else lret (error, VNull)) ;;
  if negb (Extensions.isNull callback)
  then call_callback callback (fst r) (snd r)
  else lret tt.

(** Handles the completion of the login HTTP call. *)
Definition onLoginResponse (error : failure) (response : value) (callback : arg)
    : L unit :=
  s <- lget ;;
  if no_failure error then
    match response with
    | VUndefined | VNull =>
        onLoginComplete (Caught (TypeError "responseText")) VNull callback
    | _ =>
        let r := fromJson (property (loginObjects s) response "responseText")
                          (loginObjects s) in
        match fst r with
        | Resolved token =>
            (fun s => (Resolved tt,
                       mkLogin (snd r) (currentUser s) (ignoreFilters s)
                               (inProcess s) (cancelCallback s) (happened s))) ;;
            onLoginComplete error token callback
        | Rejected e => onLoginComplete (Caught e) VNull callback
        end
    end
  else onLoginComplete error VNull callback.

(** Log a user in given a Mobile Service authentication token. *)
Definition loginWithMobileServiceToken (authenticationToken callback : arg)
    : L unit :=
  llift (isString authenticationToken "authenticationToken") ;;
  llift (notNullOrEmpty authenticationToken "authenticationToken") ;;
  s <- lget ;;
  record (EvTokenRequest authenticationToken (ignoreFilters s) callback).

(** The callback handed to [client._request] by
    [loginWithMobileServiceToken]. *)
Definition token_request_completed (error : failure) (response : value)
    (callback : arg) : L unit :=
  onLoginResponse error response callback.

(** Log a user in given a provider name and token object. *)
Definition loginWithProviderAndToken
    (provider : string) (token : arg) (p : parameters) (callback : arg) : L unit :=
  set_loginState true None ;;
  s <- lget ;;
  record (EvProviderRequest provider token p (ignoreFilters s) callback).


(** The callback handed to [Platform.login]. *)
Definition control_completed (error : failure) (mobileServiceToken : value)
    (callback : arg) : L unit :=
  set_loginState false None ;;
  onLoginComplete error mobileServiceToken callback.

(** Log a user in using a platform specific login control. *)
Definition loginWithLoginControl
    (provider : string) (useSingleSignOn : arg) (p : parameters) (callback : arg)
    : L unit :=
  (* If not single sign-on, then we need to construct a non-null end uri. *)
  let withEndUri := negb (truthy_arg useSingleSignOn) in
  set_loginState true None ;; (* cancelCallback gets set below *)
  s <- lget ;;
  record (EvLoginControl provider withEndUri p callback) ;;
  (let r := platform_login provider withEndUri p (loginObjects s) in
   (fun s => (Resolved tt,
              mkLogin (snd r) (currentUser s) (ignoreFilters s) (inProcess s)
                      (cancelCallback s) (happened s))) ;;
   match completion (fst r) with
   | Some (error, token) => control_completed (Passed error) token callback
   | None => lret tt
   end ;;
   s <- lget ;;
   match resultCancel (fst r) with
   | Some c => if inProcess s then set_loginState true (Some c) else lret tt
   | None => lret tt
   end).

(** Log a user in given a provider name and optional token object. *)
Definition loginWithProvider
    (provider token useSingleSignOn : arg) (p : parameters) (callback : arg)
    : L unit :=
  (* Validate arguments *)
  llift (isString provider "provider") ;;
  (if negb (Extensions.isNull token)
   then llift (isObject token "token") else lret tt) ;;
  (* Throw if a login is already in process and is not cancellable *)
  s <- lget ;;
  (if inProcess s then
     didCancel <- match cancelCallback s with
                  | Some c => record EvCancel ;; lret c
                  | None => lret false
                  end ;;
     if negb didCancel
     then lthrow (External (VStr "MobileServiceLogin_LoginErrorResponse"))
     else lret tt
   else lret tt) ;;
  lowered <- toLowerCase provider ;;
  match lowered with
  | Data (VStr provider) =>
      (* Either login with the token or the platform specific login control. *)
      if negb (Extensions.isNull token)
      then loginWithProviderAndToken provider token p callback
      else loginWithLoginControl provider useSingleSignOn p callback
  | _ => lthrow (TypeError "toLowerCase")
  end.

(** Log a user in given a provider name and optional token object. *)
Definition login (provider token useSingleSignOn callback : arg) : L unit :=
  (* Account for absent optional arguments *)
  let '(token, useSingleSignOn, callback) :=
    if Extensions.isNull callback then
      if negb (Extensions.isNull useSingleSignOn) && is_function useSingleSignOn
      then (token, null, useSingleSignOn)
      else if negb (Extensions.isNull token) && is_function token
      then (null, null, token)
      else (token, useSingleSignOn, callback)
    else (token, useSingleSignOn, callback) in
  let '(token, useSingleSignOn) :=
    if Extensions.isNull useSingleSignOn then
      if Extensions.isBool token then (null, token)
      else (token, Data (VBool false))
    else (token, useSingleSignOn) in
  (* Determine if the provider is actually a Mobile Services authentication token *)
  let '(provider, token) :=
    if Extensions.isNull token && _isAuthToken provider
    then (null, provider) else (provider, token) in
  (* Validate parameters; there must be either a provider, a token or both *)
  (if Extensions.isNull provider
   then llift (notNull token "") ;; llift (isString token "")
   else lret tt) ;;
  provider <- (if Extensions.isNull token
               then llift (notNull provider "") ;;
                    llift (isString provider "") ;;
                    toLowerCase provider
               else lret provider) ;;
  if negb (Extensions.isNull provider) then
    lowered <- toLowerCase provider ;;
    (let provider :=
       if bool_decide (lowered = Data (VStr "windowsazureactivedirectory"))
       then Data (VStr "aad") else provider in
     loginWithProvider provider token useSingleSignOn EmptyObject callback)
  else loginWithMobileServiceToken token callback.

(** [options.k], for the [options] of [loginWithOptions] once defaulted to
    [{}]. *)
Definition option_of (h : heap) (options : arg) (k : string) : arg :=
  match options with
  | Data v => if truthy v then Data (property h v k) else Data VUndefined
  | Fn _ => Data VUndefined
  end.

(** Log a user in given a provider name with given options. *)
Definition loginWithOptions (provider options callback : arg) : L unit :=
  llift (isString provider "provider") ;;
  llift (notNull provider "provider") ;;
  r <- (if Extensions.isNull callback then
          if negb (Extensions.isNull options) && is_function options
          then lret (null, options)
          else llift (notNull null "callback") ;; lret (options, callback)
        else lret (options, callback)) ;;
  let options := fst r in
  let callback := snd r in
  s <- lget ;;
  if negb (truthy_arg options) && _isAuthToken provider
  then loginWithMobileServiceToken provider callback
  else
    let h := loginObjects s in
    loginWithProvider provider (option_of h options "token")
                      (option_of h options "useSingleSignOn")
                      (Given (option_of h options "parameters")) callback.

(** A location the heap does not use yet. *)
Definition unused (h : heap) : loc := fresh (dom h).

(** Override the login user with a valid bearer token. *)
Definition overrideLoginWithBearerToken (bearerToken callback : arg) : L value :=
  llift (isString bearerToken "bearerToken") ;;
  llift (notNullOrEmpty bearerToken "bearerToken") ;;
  match bearerToken with
  | Data token =>
      (fun s =>
         let l := unused (loginObjects s) in
         (Resolved tt,
          mkLogin (<[l := {["bearerToken" := token]}]> (loginObjects s))
                  (VRef l) (ignoreFilters s) (inProcess s) (cancelCallback s)
                  (happened s))) ;;
      s <- lget ;;
      call_callback callback (Passed VNull) (currentUser s) ;;
      s <- lget ;;
      lret (currentUser s)
  | Fn _ => lthrow (TypeError "bearerToken")
  end.
End Functions.
End Login.

(** A platform whose login control stays open and can be cancelled, and whose
    parser accepts the text it is given as the token. *)
Module LoginApp.
#[global] Instance platform : Login.Platform := {|
  Login.platform_login := fun _ _ _ h => (Login.mkPlatformResult None (Some true), h);
  Login.fromJson := fun v h => (Resolved v, h)
|}.

(** A client [{}], a token [{user: {userId: 'u1'}, authenticationToken: 't1'}]
    and its user. *)
Definition theClient : value := VRef 1%positive.
Definition theToken : value := VRef 2%positive.
Definition theUser : value := VRef 3%positive.

Definition some_objects : heap :=
  <[1%positive := ∅]>
  (<[2%positive := <["user" := theUser]> {["authenticationToken" := VStr "t1"]}]>
  (<[3%positive := {["userId" := VStr "u1"]}]> ∅)).

(** Just constructed, and with a provider login under way. *)
Definition idle : Login.login_state :=
  Login.mkLogin some_objects VUndefined (Login.Data (VBool true)) false None [].

Definition busy : Login.login_state :=
  Login.mkLogin some_objects VUndefined (Login.Data (VBool true)) true None [].
End LoginApp.

(** ** More of the small application *)

Module Cases.
(** After [insert('todo', c)], [push()] and [del('todo', c)]: the record of
    [c] has a pending 'delete'. *)
Definition removed : state :=
  snd (del App.todo App.item_c
         (snd (push (snd (insert App.todo App.item_c App.started))))).

(** Collaborators as in [Model], except that the pull manager fails to load
    its cursors. *)
Definition faulty : Collaborators := {|
  world := Model.memory;
  handle := value;
  logging := Model.log_entry;
  uuid_v4 := Model.v4;
  createOperationTableManager := fun localStore => Resolved localStore;
  operationTableManager_initialize := fun _ _ _ w => (Resolved tt, w);
  getLoggingOperation := Model.loggingOperation;
  createPullManager := fun _ st _ => Resolved st;
  createPushManager := fun _ st _ => Resolved st;
  createPurgeManager := fun st => Resolved st;
  pullManager_initialize :=
    fun _ _ w => (Rejected (External (VStr "cursors unreadable")), w);
  pullManager_pull := Model.pull;
  pushManager_push := Model.push;
  purgeManager_purge := Model.purge;
  store_lookup := Model.lookup;
  store_read := Model.read;
  store_executeBatch := Model.executeBatch
|}.

Definition fresh_faulty : @state faulty :=
  @mkState faulty (@new_context faulty App.theClient) App.some_objects
           Model.empty [].
End Cases.

(** * Properties *)

Section Properties.
Context `{C : Collaborators}.

Ltac unfold_sync :=
  unfold invoke, insert, update, del, lookup, read, pull, push, purge,
    upsertWithLogging, validateInitialization, taskRunner.run, Platform.async,
    bind, ret, throw, lift, get_ctx, get_id, set_id, the_manager, ask, call,
    call_uuid, modify_ctx, Validate.isString, Validate.notNullOrEmpty,
    Validate.notNull, Validate.isObject, Validate.isBool, Validate.isValidId,
    Validate.check in *.

Lemma bind_rejected {A B} (m : M A) (k : A -> M B) (s s' : state) (e : error) :
  m s = (Rejected e, s') -> bind m k s = (Rejected e, s').
Proof. intros H. unfold bind. now rewrite H. Qed.

Lemma bind_resolved {A B} (m : M A) (k : A -> M B) (s s' : state) (a : A) :
  m s = (Resolved a, s') -> bind m k s = k a s'.
Proof. intros H. unfold bind. now rewrite H. Qed.

Lemma validateInitialization_uninitialized (s : state) :
  isInitialized (ctx s) = false ->
  validateInitialization s = (Rejected UsedBeforeInitialized, s).
Proof.
  intros H. unfold validateInitialization, bind, get_ctx, throw.
  now rewrite H.
Qed.

Lemma validateInitialization_initialized (s : state) :
  isInitialized (ctx s) = true ->
  validateInitialization s = (Resolved tt, s).
Proof.
  intros H. unfold validateInitialization, bind, get_ctx, ret.
  now rewrite H.
Qed.

Lemma guarded_uninitialized {A} (k : M A) (s : state) :
  isInitialized (ctx s) = false ->
  (validateInitialization ;; k) s = (Rejected UsedBeforeInitialized, s).
Proof.
  intros H. unfold bind at 1.
  now rewrite validateInitialization_uninitialized.
Qed.

Lemma guarded_initialized {A} (k : M A) (s : state) :
  isInitialized (ctx s) = true ->
  (validateInitialization ;; k) s = k s.
Proof.
  intros H. unfold bind at 1.
  now rewrite validateInitialization_initialized.
Qed.

Lemma purge_invalid_arguments (q f : value) (s : state) :
  valid_purge_arguments q f = false ->
  exists which name, purge q f s = (Rejected (Invalid which name), s).
Proof.
  unfold valid_purge_arguments, purge, taskRunner.run, bind, lift.
  destruct q, f; simpl; intros H; try discriminate; eauto.
Qed.

Lemma purge_valid_arguments_uninitialized (q f : value) (s : state) :
  valid_purge_arguments q f = true ->
  isInitialized (ctx s) = false ->
  purge q f s = (Rejected UsedBeforeInitialized, s).
Proof.
  unfold valid_purge_arguments, purge, taskRunner.run.
  destruct q, f; simpl; intros Hv Hi; try discriminate;
    unfold bind at 1; simpl; unfold bind at 1; simpl; unfold bind at 1; simpl;
    now rewrite guarded_uninitialized.
Qed.

(** C1 (as amended).  On a context whose [isInitialized] is still false,
    every public operation rejects and leaves the whole state as it was
    (no store write, no call to any collaborator).  The rejection is the
    not-initialized error, except for [purge] called with arguments that
    fail its own checks, which rejects with the validation error. *)
Theorem uninitialized_operation_rejects (i : invocation) (s : state) :
  isInitialized (ctx s) = false ->
  snd (invoke i s) = s /\
  exists e, fst (invoke i s) = Rejected e /\
    if refused_on_arguments i then is_validation_error e = true
    else e = UsedBeforeInitialized.
Proof.
  intros H. destruct i; simpl.
  1-3, 6-7:
    (unfold insert, update, del, pull, push, taskRunner.run;
     rewrite guarded_uninitialized by assumption; simpl; eauto).
  - unfold lookup, Platform.async.
    rewrite (bind_rejected _ _ s s UsedBeforeInitialized)
      by now apply guarded_uninitialized.
    simpl; eauto.
  - unfold read, Platform.async.
    rewrite (bind_resolved (ret tt) _ s s tt) by reflexivity.
    rewrite guarded_uninitialized by assumption. simpl; eauto.
  - destruct (valid_purge_arguments query forcePurge) eqn:Hv; simpl.
    + rewrite purge_valid_arguments_uninitialized by assumption. simpl; eauto.
    + destruct (purge_invalid_arguments _ _ s Hv) as (which & name & ->).
      simpl; eauto.
Qed.

(** C9.  [purge] checks its query before it checks initialization: on an
    uninitialized context a query that is null or not an object is
    rejected with the validation error, while [insert], [update] and [del]
    reject with the not-initialized error whatever their arguments are. *)
Theorem purge_validates_before_initialization (s : state) (q f t x : value) :
  isInitialized (ctx s) = false ->
  valid_query q = false ->
  (exists e, fst (purge q f s) = Rejected e /\
             is_validation_error e = true /\ e <> UsedBeforeInitialized) /\
  fst (insert t x s) = Rejected UsedBeforeInitialized /\
  fst (update t x s) = Rejected UsedBeforeInitialized /\
  fst (del t x s) = Rejected UsedBeforeInitialized.
Proof.
  intros Hi Hq. split.
  - destruct (purge_invalid_arguments q f s) as (which & name & ->).
    + unfold valid_purge_arguments. now rewrite Hq.
    + simpl. eexists. split; [reflexivity |]. split; [reflexivity | discriminate].
  - unfold insert, update, del, taskRunner.run.
    now rewrite !guarded_uninitialized by assumption.
Qed.

(** C8 (as amended).  On an initialized context, [update] and [del] of an
    instance whose id is null or absent reject with a validation error and
    leave the whole state as it was: nothing is written to the store and
    no id is generated. *)
Theorem update_del_require_id (s : state) (t x : value) :
  isInitialized (ctx s) = true ->
  lacks_id (objects s) x = true ->
  (exists e, update t x s = (Rejected e, s) /\ is_validation_error e = true) /\
  (exists e, del t x s = (Rejected e, s) /\ is_validation_error e = true).
Proof.
  intros Hi Hx. unfold update, del, taskRunner.run.
  rewrite !guarded_initialized by assumption.
  unfold lacks_id, property in Hx.
  assert (Hid : forall l, x = VRef l ->
            Validate.validId (default VUndefined (fields (objects s) l !! "id")) = false).
  { intros l ->. simpl in Hx.
    destruct (default VUndefined (fields (objects s) l !! "id"));
      simpl in *; congruence. }
  split; unfold_sync;
    (destruct t as [ | | | | tn | ]; simpl;
     [ | | | | destruct (String.eqb tn ""); simpl | ];
     try (eexists; split; reflexivity);
     destruct x as [ | | | | | l]; simpl;
     try (eexists; split; reflexivity);
     rewrite (Hid l eq_refl); simpl;
     eexists; split; reflexivity).
Qed.

Lemma ready_initialized (c : context) :
  ready c = true -> isInitialized c = true ->
  truthy (store c) = true /\
  (exists m, operationTableManager c = Some m) /\
  (exists m, pullManager c = Some m) /\
  (exists m, pushManager c = Some m) /\
  (exists m, purgeManager c = Some m).
Proof.
  unfold ready. intros Hr Hi. rewrite Hi in Hr. simpl in Hr.
  destruct (truthy (store c)), (operationTableManager c), (pullManager c),
    (pushManager c), (purgeManager c); simpl in Hr; try discriminate.
  repeat split; eauto.
Qed.

Lemma validId_not_null (v : value) :
  Validate.validId v = true -> Ext.isNull v = false.
Proof. destruct v; simpl; congruence. Qed.

Lemma validId_property_object (h : heap) (x : value) :
  Validate.validId (property h x "id") = true -> exists l, x = VRef l.
Proof. destruct x; simpl; try discriminate; eauto. Qed.

Lemma valid_table_name_string (t : value) :
  valid_table_name t = true ->
  exists tn, t = VStr tn /\ String.eqb tn "" = false.
Proof.
  destruct t; simpl; try discriminate.
  destruct (String.eqb s "") eqn:E; simpl; try discriminate; eauto.
Qed.

Lemma truthy_get_id (r : value) (s : state) :
  truthy r = true -> get_id r s = (Resolved (property (objects s) r "id"), s).
Proof. destruct r; simpl; try discriminate; reflexivity. Qed.

(** C3.  On an initialized context, an [insert] whose instance carries the
    id of a record the store already holds is rejected with the
    record-exists error after the lookup alone: no logging operation is
    computed, no batch is executed, and the objects, the store's data and
    the pending operations are as before. *)
Theorem insert_existing_record_rejected (s : state) (t x r : value) :
  ready (ctx s) = true ->
  isInitialized (ctx s) = true ->
  valid_table_name t = true ->
  Validate.validId (property (objects s) x "id") = true ->
  store_lookup (store (ctx s)) t (property (objects s) x "id") (VBool true)
               (objects s) (ext s) = Resolved r ->
  truthy r = true ->
  insert t x s =
    (Rejected (RecordExists (property (objects s) r "id") t),
     mkState (ctx s) (objects s) (ext s)
             (trace s ++ [EvStoreLookup t (property (objects s) x "id") (VBool true)])).
Proof.
  intros Hr Hi Ht Hid Hl Htr.
  destruct (ready_initialized _ Hr Hi) as (Hs & _).
  destruct (valid_table_name_string _ Ht) as (tn & -> & Htn).
  destruct (validId_property_object _ _ Hid) as (l & ->).
  pose proof (validId_not_null _ Hid) as Hn.
  unfold insert, taskRunner.run. rewrite guarded_initialized by assumption.
  simpl in Hid, Hn, Hl.
  unfold upsertWithLogging, bind, lift, ret, throw, get_ctx, ask,
    Validate.isString, Validate.notNullOrEmpty, Validate.notNull,
    Validate.isValidId, Validate.check.
  simpl. rewrite Hn, Htn, Hid, Hs. simpl. rewrite Hl, Htr. simpl.
  rewrite truthy_get_id by assumption. reflexivity.
Qed.

(** *** Computations that stay within a relation *)

Section Respects.
Variable R : state -> state -> Prop.
Hypothesis R_refl : forall s, R s s.
Hypothesis R_trans : forall s1 s2 s3, R s1 s2 -> R s2 s3 -> R s1 s3.

Lemma respects_bind {A B} (m : M A) (k : A -> M B) :
  respects R m -> (forall a, respects R (k a)) -> respects R (bind m k).
Proof.
  intros Hm Hk s. unfold bind. specialize (Hm s).
  destruct (m s) as [[a | e] s']; simpl in *; [| assumption].
  eapply R_trans; [eassumption | apply Hk].
Qed.

Lemma respects_ret {A} (a : A) : respects R (ret a).
Proof. intros s. apply R_refl. Qed.

Lemma respects_throw {A} (e : error) : respects R (@throw _ A e).
Proof. intros s. apply R_refl. Qed.

Lemma respects_lift {A} (o : outcome A) : respects R (lift o).
Proof. intros s. apply R_refl. Qed.

Lemma respects_get_ctx : respects R get_ctx.
Proof. intros s. apply R_refl. Qed.

Lemma respects_get_id (v : value) : respects R (get_id v).
Proof. intros s. unfold get_id. destruct v; apply R_refl. Qed.

Lemma respects_the_manager (name : string) (o : option handle) :
  respects R (the_manager name o).
Proof. intros s. destruct o; apply R_refl. Qed.

Lemma respects_validateInitialization : respects R validateInitialization.
Proof.
  intros s. unfold validateInitialization, bind, get_ctx, ret, throw.
  destruct (isInitialized (ctx s)); apply R_refl.
Qed.

Lemma respects_if {A} (b : bool) (m1 m2 : M A) :
  respects R m1 -> respects R m2 -> respects R (if b then m1 else m2).
Proof. destruct b; auto. Qed.
End Respects.

Lemma same_context_refl (s : state) : same_context s s.
Proof. reflexivity. Qed.

Lemma same_context_trans (s1 s2 s3 : state) :
  same_context s1 s2 -> same_context s2 s3 -> same_context s1 s3.
Proof. unfold same_context. congruence. Qed.

Lemma only_calls_refl (s : state) : only_calls s s.
Proof. repeat split. exists []. now rewrite app_nil_r. Qed.

Lemma only_calls_trans (s1 s2 s3 : state) :
  only_calls s1 s2 -> only_calls s2 s3 -> only_calls s1 s3.
Proof.
  intros (Hc1 & Ho1 & n1 & Ht1) (Hc2 & Ho2 & n2 & Ht2).
  repeat split; try congruence.
  exists (n1 ++ n2). now rewrite Ht2, Ht1, app_assoc.
Qed.

Lemma only_calls_ask {A} (e : event logging) (f : heap -> world -> outcome A) :
  respects only_calls (ask e f).
Proof. intros s. repeat split. now exists [e]. Qed.

Lemma only_calls_call {A} (e : event logging)
    (f : heap -> world -> outcome A * world) :
  respects only_calls (call e f).
Proof.
  intros s. unfold call. destruct (f (objects s) (ext s)).
  repeat split. now exists [e].
Qed.

Lemma same_context_ask {A} (e : event logging) (f : heap -> world -> outcome A) :
  respects same_context (ask e f).
Proof. intros s. reflexivity. Qed.

Lemma same_context_call {A} (e : event logging)
    (f : heap -> world -> outcome A * world) :
  respects same_context (call e f).
Proof. intros s. unfold call. now destruct (f (objects s) (ext s)). Qed.

Lemma same_context_call_uuid : respects same_context call_uuid.
Proof. intros s. unfold call_uuid. now destruct (uuid_v4 (ext s)). Qed.

Lemma same_context_set_id (v x : value) : respects same_context (set_id v x).
Proof. intros s. unfold set_id. now destruct v. Qed.

Ltac respects_step Rrefl Rtrans :=
  lazymatch goal with
  | |- forall _, _ => intro
  | |- respects _ (let _ := _ in _) => cbv zeta
  | |- respects _ (bind _ _) => apply (respects_bind _ Rtrans)
  | |- respects _ (ret _) => apply (respects_ret _ Rrefl)
  | |- respects _ (throw _) => apply (respects_throw _ Rrefl)
  | |- respects _ (lift _) => apply (respects_lift _ Rrefl)
  | |- respects _ get_ctx => apply (respects_get_ctx _ Rrefl)
  | |- respects _ (get_id _) => apply (respects_get_id _ Rrefl)
  | |- respects _ (the_manager _ _) => apply (respects_the_manager _ Rrefl)
  | |- respects _ validateInitialization =>
      apply (respects_validateInitialization _ Rrefl)
  | |- respects _ (if _ then _ else _) => apply respects_if
  | |- respects only_calls (ask _ _) => apply only_calls_ask
  | |- respects only_calls (call _ _) => apply only_calls_call
  | |- respects same_context (ask _ _) => apply same_context_ask
  | |- respects same_context (call _ _) => apply same_context_call
  | |- respects same_context call_uuid => apply same_context_call_uuid
  | |- respects same_context (set_id _ _) => apply same_context_set_id
  end.

Ltac respects_steps Rrefl Rtrans := repeat respects_step Rrefl Rtrans.

Lemma upsertWithLogging_only_calls (t x : value) (a : action) (o : value) :
  respects only_calls (upsertWithLogging t x a o).
Proof.
  unfold upsertWithLogging.
  respects_steps only_calls_refl only_calls_trans.
Qed.

Lemma invoke_same_context (i : invocation) : respects same_context (invoke i).
Proof.
  destruct i; simpl;
    unfold insert, update, del, lookup, read, pull, push, purge,
      upsertWithLogging, taskRunner.run, Platform.async;
    respects_steps same_context_refl same_context_trans.
Qed.

Lemma upsertWithLogging_resolves (t x v : value) (a : action) (o : value) (s : state) :
  fst (upsertWithLogging t x a o s) = Resolved v -> v = x.
Proof.
  unfold upsertWithLogging, bind, lift, ret, throw, get_ctx, ask, call,
    the_manager.
  repeat match goal with
         | |- context [match ?m with _ => _ end] =>
             destruct m eqn:?; simpl; try discriminate
         | |- context [if ?b then _ else _] =>
             destruct b eqn:?; simpl; try discriminate
         end.
  congruence.
Qed.

(** What [upsertWithLogging] does once its arguments have passed validation. *)
Lemma upsertWithLogging_valid
    (s : state) (t : value) (l : loc) (a : action) (o : value) (m : handle) :
  valid_table_name t = true ->
  Validate.validId (property (objects s) (VRef l) "id") = true ->
  truthy (store (ctx s)) = true ->
  operationTableManager (ctx s) = Some m ->
  upsertWithLogging t (VRef l) a o s =
    let id := property (objects s) (VRef l) "id" in
    let looked := EvStoreLookup t id (VBool true) in
    let logged := EvGetLoggingOperation t a (VRef l) in
    match store_lookup (store (ctx s)) t id (VBool true) (objects s) (ext s) with
    | Rejected e =>
        (Rejected e, mkState (ctx s) (objects s) (ext s) (trace s ++ [looked]))
    | Resolved r =>
        if truthy r && negb (truthy o)
        then (Rejected (RecordExists (property (objects s) r "id") t),
              mkState (ctx s) (objects s) (ext s) (trace s ++ [looked]))
        else
          match getLoggingOperation m t a (VRef l) (objects s) (ext s) with
          | (Rejected e, w1) =>
              (Rejected e,
               mkState (ctx s) (objects s) w1 (trace s ++ [looked; logged]))
          | (Resolved op, w1) =>
              let batch := [BUpsert t (VRef l); BLogging op] in
              (match fst (store_executeBatch (store (ctx s)) batch (objects s) w1) with
               | Resolved _ => Resolved (VRef l)
               | Rejected e => Rejected e
               end,
               mkState (ctx s) (objects s)
                       (snd (store_executeBatch (store (ctx s)) batch (objects s) w1))
                       (trace s ++ [looked; logged; EvExecuteBatch batch]))
          end
    end.
Proof.
  intros Ht Hid Hs Hm.
  destruct (valid_table_name_string _ Ht) as (tn & -> & Htn).
  pose proof (validId_not_null _ Hid) as Hn.
  simpl in Hid, Hn.
  unfold upsertWithLogging, bind, lift, ret, throw, get_ctx, ask, call,
    the_manager, Validate.isString, Validate.notNullOrEmpty, Validate.notNull,
    Validate.isValidId, Validate.check.
  simpl. rewrite Htn, Hid, Hs. simpl.
  destruct (store_lookup _ _ _ _ _ _) as [r | e]; simpl; [| reflexivity].
  destruct (truthy r && negb (truthy o)) eqn:Hex; simpl.
  - apply andb_true_iff in Hex as [Hr _].
    now rewrite truthy_get_id by assumption.
  - rewrite Hm. simpl.
    destruct (getLoggingOperation _ _ _ _ _ _) as [[op | e] w1]; simpl.
    + destruct (store_executeBatch _ _ _ _) as [[v | e] w2]; simpl;
        now rewrite <- !app_assoc.
    + now rewrite <- !app_assoc.
Qed.

(** [update] once its arguments have passed validation and the lookup and the
    logging computation have resolved. *)
Lemma update_valid
    (s : state) (t : value) (l : loc) (m : handle) (r : value)
    (op : logging) (w1 : world) :
  ready (ctx s) = true ->
  isInitialized (ctx s) = true ->
  valid_table_name t = true ->
  Validate.validId (property (objects s) (VRef l) "id") = true ->
  operationTableManager (ctx s) = Some m ->
  store_lookup (store (ctx s)) t (property (objects s) (VRef l) "id") (VBool true)
               (objects s) (ext s) = Resolved r ->
  getLoggingOperation m t Update (VRef l) (objects s) (ext s) = (Resolved op, w1) ->
  update t (VRef l) s =
    (match fst (store_executeBatch (store (ctx s))
                  [BUpsert t (VRef l); BLogging op] (objects s) w1) with
     | Resolved _ => Resolved (VRef l)
     | Rejected e => Rejected e
     end,
     mkState (ctx s) (objects s)
       (snd (store_executeBatch (store (ctx s))
               [BUpsert t (VRef l); BLogging op] (objects s) w1))
       (trace s ++
          [EvStoreLookup t (property (objects s) (VRef l) "id") (VBool true);
           EvGetLoggingOperation t Update (VRef l);
           EvExecuteBatch [BUpsert t (VRef l); BLogging op]])).
Proof.
  intros Hr Hi Ht Hid Hm Hl Hg.
  destruct (ready_initialized _ Hr Hi) as (Hs & _).
  unfold update, taskRunner.run. rewrite guarded_initialized by assumption.
  rewrite (upsertWithLogging_valid s t l Update (VBool true) m) by assumption.
  cbv zeta. rewrite Hl. simpl truthy. rewrite andb_false_r.
  now rewrite Hg.
Qed.

(** C5.  On an initialized context, [update] with a valid table name and id
    goes the same way whatever the store's lookup resolves with, a record or
    nothing: the logging operation for 'update' is computed and one batch of
    the upsert and that logging entry is executed; the outcome is the
    batch's. *)
Theorem update_overwrites
    (s : state) (t : value) (l : loc) (m : handle) (r : value)
    (op : logging) (w1 : world) :
  ready (ctx s) = true ->
  isInitialized (ctx s) = true ->
  valid_table_name t = true ->
  Validate.validId (property (objects s) (VRef l) "id") = true ->
  operationTableManager (ctx s) = Some m ->
  store_lookup (store (ctx s)) t (property (objects s) (VRef l) "id") (VBool true)
               (objects s) (ext s) = Resolved r ->
  getLoggingOperation m t Update (VRef l) (objects s) (ext s) = (Resolved op, w1) ->
  update t (VRef l) s =
    (match fst (store_executeBatch (store (ctx s))
                  [BUpsert t (VRef l); BLogging op] (objects s) w1) with
     | Resolved _ => Resolved (VRef l)
     | Rejected e => Rejected e
     end,
     mkState (ctx s) (objects s)
       (snd (store_executeBatch (store (ctx s))
               [BUpsert t (VRef l); BLogging op] (objects s) w1))
       (trace s ++
          [EvStoreLookup t (property (objects s) (VRef l) "id") (VBool true);
           EvGetLoggingOperation t Update (VRef l);
           EvExecuteBatch [BUpsert t (VRef l); BLogging op]])).
Proof. apply update_valid. Qed.

Lemma quiet_refl (s : state) : quiet s s.
Proof. repeat split. exists []. split; [now rewrite app_nil_r | reflexivity]. Qed.

(** C7.  On an initialized context, [lookup] and [read] change nothing: the
    context, the objects and the collaborators' state are as before, and the
    only call made is the store's own lookup, respectively read, never a batch
    nor a logging computation.  With arguments that pass the context's
    checks the result is the store's result, the suppress flag handed over
    as given; otherwise it is a validation error. *)
Theorem lookup_read_through (s : state) (t id f q : value) :
  ready (ctx s) = true ->
  isInitialized (ctx s) = true ->
  quiet s (snd (lookup t id f s)) /\
  quiet s (snd (read q s)) /\
  (if valid_table_name t && Validate.validId id
   then fst (lookup t id f s) =
          store_lookup (store (ctx s)) t id f (objects s) (ext s)
        /\ trace (snd (lookup t id f s)) = trace s ++ [EvStoreLookup t id f]
   else (exists e, fst (lookup t id f s) = Rejected e /\
                   is_validation_error e = true)
        /\ snd (lookup t id f s) = s) /\
  (if valid_query q
   then fst (read q s) = store_read (store (ctx s)) q (objects s) (ext s)
        /\ trace (snd (read q s)) = trace s ++ [EvStoreRead q]
   else (exists e, fst (read q s) = Rejected e /\ is_validation_error e = true)
        /\ snd (read q s) = s).
Proof.
  intros Hr Hi.
  destruct (ready_initialized _ Hr Hi) as (Hs & _).
  assert (Hnn : Ext.isNull (store (ctx s)) = false)
    by (destruct (store (ctx s)); simpl in *; congruence).
  assert (Hlookup :
    lookup t id f s =
      (if valid_table_name t && Validate.validId id
       then (store_lookup (store (ctx s)) t id f (objects s) (ext s),
             mkState (ctx s) (objects s) (ext s) (trace s ++ [EvStoreLookup t id f]))
       else (fst (lookup t id f s), s)) /\
    (valid_table_name t && Validate.validId id = false ->
     exists e, fst (lookup t id f s) = Rejected e /\ is_validation_error e = true)).
  { unfold lookup, Platform.async, validateInitialization, bind, lift, ret,
      throw, get_ctx, ask, Validate.isString, Validate.notNullOrEmpty,
      Validate.isValidId, Validate.check.
    rewrite Hi. simpl.
    destruct t as [ | | | | tn | ]; simpl; try (split; [reflexivity | eauto]).
    destruct (String.eqb tn ""); simpl; try (split; [reflexivity | eauto]).
    destruct (Validate.validId id); simpl; try (split; [reflexivity | eauto]).
    rewrite Hs. simpl. split; [reflexivity | discriminate]. }
  assert (Hread :
    read q s =
      (if valid_query q
       then (store_read (store (ctx s)) q (objects s) (ext s),
             mkState (ctx s) (objects s) (ext s) (trace s ++ [EvStoreRead q]))
       else (fst (read q s), s)) /\
    (valid_query q = false ->
     exists e, fst (read q s) = Rejected e /\ is_validation_error e = true)).
  { unfold read, Platform.async, validateInitialization, bind, lift, ret,
      throw, get_ctx, ask, Validate.isObject, Validate.notNull, Validate.check.
    rewrite Hi. simpl.
    destruct q; simpl; try (split; [reflexivity | eauto]).
    rewrite Hnn. simpl. split; [reflexivity | discriminate]. }
  destruct Hlookup as [Hl Hle], Hread as [Hrd Hre].
  split; [| split; [| split]].
  - rewrite Hl. destruct (valid_table_name t && Validate.validId id); simpl.
    + repeat split. exists [EvStoreLookup t id f]. now split.
    + apply quiet_refl.
  - rewrite Hrd. destruct (valid_query q); simpl.
    + repeat split. exists [EvStoreRead q]. now split.
    + apply quiet_refl.
  - destruct (valid_table_name t && Validate.validId id).
    + rewrite Hl. simpl. auto.
    + split; [now apply Hle | now rewrite Hl].
  - destruct (valid_query q).
    + rewrite Hrd. simpl. auto.
    + split; [now apply Hre | now rewrite Hrd].
Qed.

Lemma insert_steps (s : state) (t : value) (l : loc) :
  isInitialized (ctx s) = true ->
  insert t (VRef l) s =
    upsertWithLogging t (VRef l) Insert VUndefined
      (if lacks_id (objects s) (VRef l) then with_generated_id l s else s).
Proof.
  intros Hi. unfold insert, taskRunner.run.
  rewrite guarded_initialized by assumption.
  unfold lacks_id, with_generated_id. simpl.
  unfold bind at 1. simpl.
  destruct (Ext.isNull (default VUndefined (fields (objects s) l !! "id"))).
  - unfold bind at 1. unfold bind at 1. unfold call_uuid.
    now destruct (uuid_v4 (ext s)).
  - reflexivity.
Qed.

Lemma property_with_generated_id (s : state) (l : loc) :
  property (objects (with_generated_id l s)) (VRef l) "id" =
    VStr (fst (uuid_v4 (ext s))).
Proof.
  unfold with_generated_id, property, fields. simpl.
  rewrite lookup_insert_eq. simpl. now rewrite lookup_insert_eq.
Qed.

Lemma upsertWithLogging_resolved_valid
    (s : state) (t x v : value) (a : action) (o : value) :
  fst (upsertWithLogging t x a o s) = Resolved v ->
  valid_table_name t = true /\ Validate.validId (property (objects s) x "id") = true.
Proof.
  unfold upsertWithLogging, bind at 1, lift, Validate.isString, Validate.check.
  destruct t as [ | | | | tn | ]; simpl; try discriminate.
  unfold bind at 1, Validate.notNullOrEmpty, Validate.check. simpl.
  destruct (String.eqb tn ""); simpl; try discriminate.
  unfold bind at 1, Validate.notNull, Validate.check.
  destruct x as [ | | | | | l]; simpl; try discriminate;
    unfold bind at 1; simpl; unfold bind at 1; simpl;
    unfold Validate.isValidId, Validate.check; simpl; try discriminate;
    destruct (Validate.validId _) eqn:E; simpl; try discriminate; auto.
Qed.

(** C4.  On an initialized context, an [insert] of an object (a) generates an
    id first of all, before any call to the store, when the object's id is
    null or absent, and writes it into the object; and (b) when it resolves,
    it resolves with the instance it was given, after exactly these calls:
    the lookup of the id, the computation of the logging operation for
    'insert', and one [executeBatch] of the upsert entry together with that
    logging entry. *)
Theorem insert_assigns_id_and_writes_one_batch (s : state) (t : value) (l : loc) :
  ready (ctx s) = true ->
  isInitialized (ctx s) = true ->
  (lacks_id (objects s) (VRef l) = true ->
   property (objects (snd (insert t (VRef l) s))) (VRef l) "id" =
     VStr (fst (uuid_v4 (ext s))) /\
   exists rest,
     trace (snd (insert t (VRef l) s)) =
       trace s ++ EvUuid (fst (uuid_v4 (ext s))) :: rest) /\
  (forall v, fst (insert t (VRef l) s) = Resolved v ->
   v = VRef l /\
   exists m op,
     operationTableManager (ctx s) = Some m /\
     fst (getLoggingOperation m t Insert (VRef l)
            (objects (snd (insert t (VRef l) s)))
            (ext (if lacks_id (objects s) (VRef l)
                  then with_generated_id l s else s))) = Resolved op /\
     trace (snd (insert t (VRef l) s)) =
       trace s ++
       (if lacks_id (objects s) (VRef l)
        then [EvUuid (fst (uuid_v4 (ext s)))] else []) ++
       [EvStoreLookup t
          (property (objects (snd (insert t (VRef l) s))) (VRef l) "id")
          (VBool true);
        EvGetLoggingOperation t Insert (VRef l);
        EvExecuteBatch [BUpsert t (VRef l); BLogging op]]).
Proof.
  intros Hr Hi.
  destruct (ready_initialized _ Hr Hi) as (Hs & (m & Hm) & _).
  rewrite insert_steps by assumption.
  split.
  - intros Hl. rewrite Hl.
    destruct (upsertWithLogging_only_calls t (VRef l) Insert VUndefined
                (with_generated_id l s)) as (_ & Ho & rest & Htr).
    rewrite Ho, Htr. split.
    + apply property_with_generated_id.
    + exists rest. simpl. now rewrite <- app_assoc.
  - intros v Hv. split; [now apply upsertWithLogging_resolves in Hv |].
    set (s1 := if lacks_id (objects s) (VRef l) then with_generated_id l s else s)
      in *.
    assert (Hc : ctx s1 = ctx s) by (subst s1; now destruct (lacks_id _ _)).
    assert (Ht1 : trace s1 = trace s ++
               (if lacks_id (objects s) (VRef l)
                then [EvUuid (fst (uuid_v4 (ext s)))] else []))
      by (subst s1; destruct (lacks_id _ _); simpl;
          [reflexivity | now rewrite app_nil_r]).
    destruct (upsertWithLogging_resolved_valid _ _ _ _ _ _ Hv) as [Ht Hid].
    rewrite (upsertWithLogging_valid s1 t l Insert VUndefined m) in Hv |- *
      by (rewrite ?Hc; assumption).
    cbv zeta in Hv |- *.
    destruct (store_lookup _ _ _ _ _ _) as [r | e]; [| discriminate].
    destruct (truthy r && negb (truthy VUndefined)); [discriminate |].
    destruct (getLoggingOperation _ _ _ _ _ _) as [[op | e] w1] eqn:Hg;
      [| discriminate].
    exists m, op. simpl. rewrite Hg, Ht1.
    split; [assumption |]. split; [reflexivity |]. now rewrite <- app_assoc.
Qed.

(** C10.  [insert] mutates its argument: on an initialized context, when the
    id of the object passed in is null or absent, the generated id is written
    into that very object (and nothing else in the heap changes), whether the
    call then succeeds or not; and whenever the promise resolves, it resolves
    with the reference that was passed in. *)
Theorem insert_mutates_its_argument (s : state) (t : value) (l : loc) :
  isInitialized (ctx s) = true ->
  lacks_id (objects s) (VRef l) = true ->
  objects (snd (insert t (VRef l) s)) =
    <[l := <["id" := VStr (fst (uuid_v4 (ext s)))]> (fields (objects s) l)]>
      (objects s) /\
  property (objects (snd (insert t (VRef l) s))) (VRef l) "id" =
    VStr (fst (uuid_v4 (ext s))) /\
  (forall v, fst (insert t (VRef l) s) = Resolved v -> v = VRef l).
Proof.
  intros Hi Hl. rewrite insert_steps by assumption. rewrite Hl.
  destruct (upsertWithLogging_only_calls t (VRef l) Insert VUndefined
              (with_generated_id l s)) as (_ & Ho & _).
  rewrite Ho. repeat split.
  - apply property_with_generated_id.
  - intros v Hv. now apply upsertWithLogging_resolves in Hv.
Qed.

(** *** Initialization *)

(** Runs [initialize] up to the collaborators' answers, projections reduced
    as they come. *)
Ltac run_initialize :=
  cbv beta iota zeta delta
    [initialize Platform.async bind lift ret throw get_ctx make call
     modify_ctx the_manager Validate.isObject Validate.notNull Validate.check
     Ext.isNull negb set_operationTableManager set_store set_pullManager
     set_pushManager set_purgeManager set_isInitialized
     ctx objects ext trace client store operationTableManager pullManager
     pushManager purgeManager isInitialized pushHandler fst snd].

Lemma initialize_flag (s : state) (localStore : value) :
  isInitialized (ctx (snd (initialize localStore s))) =
    match fst (initialize localStore s) with
    | Resolved _ => true
    | Rejected _ => isInitialized (ctx s)
    end.
Proof.
  destruct localStore; run_initialize; try reflexivity.
  destruct (createOperationTableManager (VRef l)); [| reflexivity].
  destruct (operationTableManager_initialize _ _ _ _) as [[[] | e] w1];
    [| reflexivity].
  destruct (createPullManager _ _ _); [| reflexivity].
  destruct (createPushManager _ _ _); [| reflexivity].
  destruct (createPurgeManager _); [| reflexivity].
  destruct (pullManager_initialize _ _ _) as [[[] | e] w2]; reflexivity.
Qed.

Lemma initialize_resolved (s : state) (localStore : value) :
  (exists v, fst (initialize localStore s) = Resolved v) <->
  (exists m w1 pl ps pg w2,
     is_object localStore = true /\
     createOperationTableManager localStore = Resolved m /\
     operationTableManager_initialize m localStore (objects s) (ext s)
       = (Resolved tt, w1) /\
     createPullManager (client (ctx s)) localStore (Some m) = Resolved pl /\
     createPushManager (client (ctx s)) localStore (Some m) = Resolved ps /\
     createPurgeManager localStore = Resolved pg /\
     pullManager_initialize pl (objects s) w1 = (Resolved tt, w2)).
Proof.
  split.
  - destruct localStore; run_initialize; try (intros [v Hv]; discriminate).
    destruct (createOperationTableManager (VRef l)) as [m | e] eqn:E1;
      [| intros [v Hv]; discriminate].
    destruct (operationTableManager_initialize m (VRef l)
                (let (_, objects, _, _) := s in objects)
                (let (_, _, ext, _) := s in ext))
      as [[[] | e] w1] eqn:E2; [| intros [v Hv]; discriminate].
    destruct (createPullManager _ (VRef l) (Some m))
      as [pl | e] eqn:E3; [| intros [v Hv]; discriminate].
    destruct (createPushManager _ (VRef l) (Some m))
      as [ps | e] eqn:E4; [| intros [v Hv]; discriminate].
    destruct (createPurgeManager (VRef l)) as [pg | e] eqn:E5;
      [| intros [v Hv]; discriminate].
    destruct (pullManager_initialize pl _ w1)
      as [[[] | e] w2] eqn:E6; [| intros [v Hv]; discriminate].
    intros _. exists m, w1, pl, ps, pg, w2. repeat split; assumption.
  - intros (m & w1 & pl & ps & pg & w2 & Ho & E1 & E2 & E3 & E4 & E5 & E6).
    destruct localStore; simpl in Ho; try discriminate.
    revert E1 E2 E3 E4 E5 E6. run_initialize.
    intros E1 E2 E3 E4 E5 E6.
    rewrite E1, E2, E3, E4, E5, E6. eauto.
Qed.

Lemma initialize_trace (s : state) (localStore v : value) :
  fst (initialize localStore s) = Resolved v ->
  trace (snd (initialize localStore s)) =
    trace s ++
    [EvCreateOperationTableManager localStore;
     EvOperationTableInitialize localStore;
     EvCreatePullManager localStore;
     EvCreatePushManager localStore;
     EvCreatePurgeManager localStore;
     EvPullInitialize].
Proof.
  destruct localStore; run_initialize; try discriminate.
  destruct (createOperationTableManager (VRef l)); [| discriminate].
  destruct (operationTableManager_initialize _ _ _ _) as [[[] | e] w1];
    [| discriminate].
  destruct (createPullManager _ _ _); [| discriminate].
  destruct (createPushManager _ _ _); [| discriminate].
  destruct (createPurgeManager _); [| discriminate].
  destruct (pullManager_initialize _ _ _) as [[[] | e] w2]; [| discriminate].
  intros _. now rewrite <- !app_assoc.
Qed.

Lemma isInitialized_stays (s : state) (u : user_call) :
  isInitialized (ctx s) = true ->
  isInitialized (ctx (snd (perform u s))) = true.
Proof.
  intros Hi. destruct u as [localStore | i | h]; simpl.
  - rewrite initialize_flag. now destruct (fst (initialize localStore s)).
  - now rewrite (invoke_same_context i s).
  - assumption.
Qed.

Example rises_counts : rises [false; true; true; false; true] = 2.
Proof. reflexivity. Qed.

Lemma rises_initialized (us : list user_call) (s : state) :
  isInitialized (ctx s) = true -> rises (flag_history us s) = 0.
Proof.
  revert s. induction us as [| u rest IH]; intros s Hi; simpl; rewrite Hi.
  - reflexivity.
  - apply IH. now apply isInitialized_stays.
Qed.

Lemma flag_history_head (us : list user_call) (s : state) :
  exists tail, flag_history us s = isInitialized (ctx s) :: tail.
Proof. destruct us; simpl; eauto. Qed.

Lemma rises_at_most_once (us : list user_call) (s : state) :
  rises (flag_history us s) <= 1.
Proof.
  revert s. induction us as [| u rest IH]; intros s.
  - simpl. destruct (isInitialized (ctx s)); simpl; lia.
  - destruct (isInitialized (ctx s)) eqn:Hi.
    + rewrite rises_initialized by assumption. lia.
    + simpl. rewrite Hi.
      destruct (flag_history_head rest (snd (perform u s))) as [tail Hh].
      destruct (isInitialized (ctx (snd (perform u s)))) eqn:Hi'.
      * rewrite Hh. rewrite <- Hh.
        rewrite rises_initialized by assumption. lia.
      * rewrite Hh. rewrite <- Hh. apply IH.
Qed.

Lemma initialize_ready (s : state) (localStore : value) :
  ready (ctx s) = true -> ready (ctx (snd (initialize localStore s))) = true.
Proof.
  destruct s as [[cl st om pl ps pg ini ph] h w tr].
  assert (Hany : forall (b b' : bool) (o1 o2 o3 o4 o1' o2' o3' o4' : option handle),
            (b = true -> b' = true) ->
            (defined o1 = true -> defined o1' = true) ->
            (defined o2 = true -> defined o2' = true) ->
            (defined o3 = true -> defined o3' = true) ->
            (defined o4 = true -> defined o4' = true) ->
            implb ini (b && defined o1 && defined o2 && defined o3 && defined o4) = true ->
            implb ini (b' && defined o1' && defined o2' && defined o3' && defined o4')
              = true).
  { intros b b' o1 o2 o3 o4 o1' o2' o3' o4' H0 H1 H2 H3 H4.
    destruct ini, b, o1, o2, o3, o4; simpl; try discriminate;
      rewrite ?H0, ?H1, ?H2, ?H3, ?H4; reflexivity. }
  unfold ready. destruct localStore; run_initialize; try (intros Hr; exact Hr).
  destruct (createOperationTableManager (VRef l)); [| intros Hr; exact Hr].
  destruct (operationTableManager_initialize _ _ _ _) as [[[] | e] w1];
    [| apply Hany; auto].
  destruct (createPullManager _ _ _); [| apply Hany; auto].
  destruct (createPushManager _ _ _); [| apply Hany; auto].
  destruct (createPurgeManager _); [| apply Hany; auto].
  destruct (pullManager_initialize _ _ _) as [[[] | e] w2];
    [reflexivity | apply Hany; auto].
Qed.

(** Every state a context goes through is [ready]: whenever [isInitialized]
    is true, the store and the managers are there. *)
Lemma reachable_ready (s : state) : reachable s -> ready (ctx s) = true.
Proof.
  induction 1 as [cl c h w Hc | s u Hs IH | s h w Hs IH]; simpl.
  - unfold MobileServiceSyncContext in Hc.
    destruct (Validate.notNull cl "client"); [| discriminate].
    now inversion Hc.
  - destruct u as [localStore | i | hd]; simpl.
    + now apply initialize_ready.
    + now rewrite (invoke_same_context i s).
    + unfold ready in *. simpl. assumption.
  - assumption.
Qed.

(** C6.  [isInitialized] is set by [initialize] exactly when it resolves,
    which it does exactly when every step has succeeded, in this order:
    the operation table manager is created and initialized, the pull, push
    and purge managers are created, and the pull manager is initialized.  If
    [initialize] rejects, the flag keeps the value it had, so a flag that was
    false becomes true only by an [initialize] that resolves; no other
    operation touches it.  No call resets a flag that is true, so along any
    sequence of calls the flag goes from false to true at most once. *)
Theorem isInitialized_set_once_after_all_steps (s : state) (localStore : value) :
  ((exists v, fst (initialize localStore s) = Resolved v) <->
   (exists m w1 pl ps pg w2,
      is_object localStore = true /\
      createOperationTableManager localStore = Resolved m /\
      operationTableManager_initialize m localStore (objects s) (ext s)
        = (Resolved tt, w1) /\
      createPullManager (client (ctx s)) localStore (Some m) = Resolved pl /\
      createPushManager (client (ctx s)) localStore (Some m) = Resolved ps /\
      createPurgeManager localStore = Resolved pg /\
      pullManager_initialize pl (objects s) w1 = (Resolved tt, w2))) /\
  (forall v, fst (initialize localStore s) = Resolved v ->
     isInitialized (ctx (snd (initialize localStore s))) = true /\
     trace (snd (initialize localStore s)) =
       trace s ++
       [EvCreateOperationTableManager localStore;
        EvOperationTableInitialize localStore;
        EvCreatePullManager localStore;
        EvCreatePushManager localStore;
        EvCreatePurgeManager localStore;
        EvPullInitialize]) /\
  (forall e, fst (initialize localStore s) = Rejected e ->
     isInitialized (ctx (snd (initialize localStore s))) = isInitialized (ctx s)) /\
  (isInitialized (ctx s) = false ->
   isInitialized (ctx (snd (initialize localStore s))) = true ->
   exists v, fst (initialize localStore s) = Resolved v) /\
  (forall i, isInitialized (ctx (snd (invoke i s))) = isInitialized (ctx s)) /\
  (forall u, isInitialized (ctx s) = true ->
     isInitialized (ctx (snd (perform u s))) = true) /\
  (forall us, rises (flag_history us s) <= 1).
Proof.
  split; [apply initialize_resolved |].
  split.
  { intros v Hv. split; [| now apply initialize_trace with v].
    rewrite initialize_flag. now rewrite Hv. }
  split.
  { intros e He. rewrite initialize_flag. now rewrite He. }
  split.
  { intros Hf. rewrite initialize_flag.
    destruct (fst (initialize localStore s)) as [v | e]; [eauto | congruence]. }
  split.
  { intros i. now rewrite (invoke_same_context i s). }
  split.
  { intros u Hi. now apply isInitialized_stays. }
  intros us. apply rises_at_most_once.
Qed.

(** *** What the operations add to the trace, and what they leave alone *)













(** X2.  No operation other than [initialize] assigns any of the context's
    variables: the store, the four managers, [isInitialized], the client
    and the push handler are after the call what they were before it,
    whether it resolves or rejects. *)
Theorem operations_keep_the_context (i : invocation) (s : state) :
  ctx (snd (invoke i s)) = ctx s.
Proof. apply (invoke_same_context i s). Qed.







Lemma insert_absent_instance (s : state) (t x : value) :
  isInitialized (ctx s) = true ->
  Ext.isNull x = true ->
  insert t x s = (Rejected (TypeError "id"), s).
Proof.
  intros Hi Hx. unfold insert, taskRunner.run.
  rewrite guarded_initialized by assumption.
  destruct x; try discriminate; reflexivity.
Qed.





(** *** Deleting, and failures on the way to a write *)

Lemma del_valid (s : state) (t x : value) (m : handle) :
  ready (ctx s) = true ->
  isInitialized (ctx s) = true ->
  valid_table_name t = true ->
  Validate.validId (property (objects s) x "id") = true ->
  operationTableManager (ctx s) = Some m ->
  del t x s =
    let logged := EvGetLoggingOperation t Delete x in
    let r := getLoggingOperation m t Delete x (objects s) (ext s) in
    match fst r with
    | Rejected e =>
        (Rejected e, mkState (ctx s) (objects s) (snd r) (trace s ++ [logged]))
    | Resolved op =>
        let batch := [BDelete t (property (objects s) x "id"); BLogging op] in
        let w := store_executeBatch (store (ctx s)) batch (objects s) (snd r) in
        (fst w,
         mkState (ctx s) (objects s) (snd w)
                 (trace s ++ [logged; EvExecuteBatch batch]))
    end.
Proof.
  intros Hr Hi Ht Hid Hm.
  destruct (ready_initialized _ Hr Hi) as (Hs & _).
  destruct (valid_table_name_string _ Ht) as (tn & -> & Htn).
  destruct (validId_property_object _ _ Hid) as (l & ->).
  simpl in Hid.
  unfold del, taskRunner.run. rewrite guarded_initialized by assumption.
  unfold bind, lift, ret, throw, get_ctx, call, the_manager,
    Validate.isString, Validate.notNullOrEmpty, Validate.notNull,
    Validate.isValidId, Validate.check.
  simpl. rewrite Htn, Hid, Hs, Hm. simpl.
  destruct (getLoggingOperation m (VStr tn) Delete (VRef l) (objects s) (ext s))
    as [[op | e] w1]; simpl; now rewrite <- ?app_assoc.
Qed.

(** X5.  On an initialized context, [del] with a valid table name and id
    never looks the record up: it computes the logging operation for
    'delete' and, if that resolves, executes one batch of the delete entry
    (for [instance.id]) and the logging entry, settling as the batch does; if
    the logging operation is refused, [del] rejects with that error and
    executes no batch. *)
Theorem del_writes_one_batch_without_lookup
    (s : state) (t x : value) (m : handle) :
  ready (ctx s) = true ->
  isInitialized (ctx s) = true ->
  valid_table_name t = true ->
  Validate.validId (property (objects s) x "id") = true ->
  operationTableManager (ctx s) = Some m ->
  (forall op w1,
     getLoggingOperation m t Delete x (objects s) (ext s) = (Resolved op, w1) ->
     del t x s =
       (fst (store_executeBatch (store (ctx s))
               [BDelete t (property (objects s) x "id"); BLogging op]
               (objects s) w1),
        mkState (ctx s) (objects s)
          (snd (store_executeBatch (store (ctx s))
                  [BDelete t (property (objects s) x "id"); BLogging op]
                  (objects s) w1))
          (trace s ++
             [EvGetLoggingOperation t Delete x;
              EvExecuteBatch
                [BDelete t (property (objects s) x "id"); BLogging op]]))) /\
  (forall e w1,
     getLoggingOperation m t Delete x (objects s) (ext s) = (Rejected e, w1) ->
     del t x s =
       (Rejected e,
        mkState (ctx s) (objects s) w1
                (trace s ++ [EvGetLoggingOperation t Delete x]))).
Proof.
  intros Hr Hi Ht Hid Hm.
  rewrite (del_valid s t x m) by assumption. cbv zeta.
  split; intros a w1 Hg; now rewrite Hg.
Qed.

(** X6.  On an initialized context, [update] with valid arguments stops at
    the first step that fails and rejects with that step's error: a failed
    lookup is followed by no logging computation and no batch, a refused
    logging operation by no batch, and a failed batch is the outcome of the
    call. *)
Theorem update_stops_at_the_first_failure
    (s : state) (t : value) (l : loc) (m : handle) :
  ready (ctx s) = true ->
  isInitialized (ctx s) = true ->
  valid_table_name t = true ->
  Validate.validId (property (objects s) (VRef l) "id") = true ->
  operationTableManager (ctx s) = Some m ->
  (forall e,
     store_lookup (store (ctx s)) t (property (objects s) (VRef l) "id")
                  (VBool true) (objects s) (ext s) = Rejected e ->
     update t (VRef l) s =
       (Rejected e,
        mkState (ctx s) (objects s) (ext s)
          (trace s ++
             [EvStoreLookup t (property (objects s) (VRef l) "id") (VBool true)]))) /\
  (forall r e w1,
     store_lookup (store (ctx s)) t (property (objects s) (VRef l) "id")
                  (VBool true) (objects s) (ext s) = Resolved r ->
     getLoggingOperation m t Update (VRef l) (objects s) (ext s)
       = (Rejected e, w1) ->
     update t (VRef l) s =
       (Rejected e,
        mkState (ctx s) (objects s) w1
          (trace s ++
             [EvStoreLookup t (property (objects s) (VRef l) "id") (VBool true);
              EvGetLoggingOperation t Update (VRef l)]))) /\
  (forall r op w1 e,
     store_lookup (store (ctx s)) t (property (objects s) (VRef l) "id")
                  (VBool true) (objects s) (ext s) = Resolved r ->
     getLoggingOperation m t Update (VRef l) (objects s) (ext s)
       = (Resolved op, w1) ->
     fst (store_executeBatch (store (ctx s))
            [BUpsert t (VRef l); BLogging op] (objects s) w1) = Rejected e ->
     fst (update t (VRef l) s) = Rejected e).
Proof.
  intros Hr Hi Ht Hid Hm.
  destruct (ready_initialized _ Hr Hi) as (Hs & _).
  unfold update, taskRunner.run. rewrite guarded_initialized by assumption.
  rewrite (upsertWithLogging_valid s t l Update (VBool true) m) by assumption.
  cbv zeta. split; [| split].
  - intros e Hl. now rewrite Hl.
  - intros r e w1 Hl Hg. rewrite Hl. simpl truthy. rewrite andb_false_r.
    now rewrite Hg.
  - intros r op w1 e Hl Hg Hb. rewrite Hl. simpl truthy. rewrite andb_false_r.
    rewrite Hg. simpl. now rewrite Hb.
Qed.

(** X7.  [insert] reads [instance.id] before it validates anything: on an
    initialized context an [insert] of null or undefined is rejected with a
    type error, whatever the table name, and nothing has happened. *)
Theorem insert_of_nothing_is_a_type_error (s : state) (t x : value) :
  isInitialized (ctx s) = true ->
  Ext.isNull x = true ->
  insert t x s = (Rejected (TypeError "id"), s).
Proof. apply insert_absent_instance. Qed.

(** X8.  [insert] generates the id before it validates the table name: on
    an initialized context, for an object without an id and a table name that
    is not a non-empty string, [insert] rejects with a validation error
    without any call to the store, and the id has been generated and written
    into the object all the same. *)
Theorem insert_generates_id_before_validating
    (s : state) (t : value) (l : loc) :
  isInitialized (ctx s) = true ->
  lacks_id (objects s) (VRef l) = true ->
  valid_table_name t = false ->
  exists e,
    insert t (VRef l) s = (Rejected e, with_generated_id l s) /\
    is_validation_error e = true.
Proof.
  intros Hi Hl Ht. rewrite insert_steps by assumption. rewrite Hl.
  unfold upsertWithLogging, bind at 1, lift, Validate.isString, Validate.check.
  destruct t as [ | | | | tn | ]; simpl; eauto.
  unfold bind at 1, Validate.notNullOrEmpty, Validate.check. simpl.
  simpl in Ht. destruct (String.eqb tn ""); simpl in *; [eauto | discriminate].
Qed.

(** *** Initialization, continued *)

Lemma invoke_uninitialized (i : invocation) (s : state) :
  isInitialized (ctx s) = false ->
  refused_on_arguments i = false ->
  invoke i s = (Rejected UsedBeforeInitialized, s).
Proof.
  intros H Hv. destruct i; simpl.
  1-3, 6-7:
    (unfold insert, update, del, pull, push, taskRunner.run;
     now rewrite guarded_uninitialized by assumption).
  - unfold lookup, Platform.async.
    now rewrite (bind_rejected _ _ s s UsedBeforeInitialized)
      by now apply guarded_uninitialized.
  - unfold read, Platform.async.
    rewrite (bind_resolved (ret tt) _ s s tt) by reflexivity.
    now rewrite guarded_uninitialized by assumption.
  - simpl in Hv. apply negb_false_iff in Hv.
    now apply purge_valid_arguments_uninitialized.
Qed.

(** X9.  A context whose [initialize] has rejected is as unusable as a new
    one: if [isInitialized] was false before, every operation called after
    the failed [initialize] still rejects with the not-initialized error
    ([purge] provided its arguments pass its checks) and changes nothing. *)
Theorem failed_initialize_leaves_context_unusable
    (s : state) (localStore : value) (e : error) (i : invocation) :
  isInitialized (ctx s) = false ->
  fst (initialize localStore s) = Rejected e ->
  refused_on_arguments i = false ->
  invoke i (snd (initialize localStore s)) =
    (Rejected UsedBeforeInitialized, snd (initialize localStore s)).
Proof.
  intros Hi He Hv. apply invoke_uninitialized; [| assumption].
  rewrite initialize_flag. now rewrite He.
Qed.

(** X10.  [initialize] with a store that is null, undefined or not an
    object rejects with a validation error before anything is created: no
    factory is called and the context is as it was. *)
Theorem initialize_refuses_non_object_store (s : state) (localStore : value) :
  is_object localStore = false ->
  exists e,
    initialize localStore s = (Rejected e, s) /\ is_validation_error e = true.
Proof.
  intros Ho. destruct localStore; try discriminate; run_initialize; eauto.
Qed.

(** X11.  [initialize] is not atomic: a rejection does not undo what the
    steps before it assigned.  If the initialization of the operation table
    manager fails, the new manager is already in [operationTableManager]
    while the store is still the previous one; if the last step, the pull
    manager's initialization, fails, the store and all four managers are the
    new ones.  [isInitialized] is as it was in both cases. *)
Theorem initialize_is_not_atomic
    (s : state) (localStore : value) (m : handle) :
  is_object localStore = true ->
  createOperationTableManager localStore = Resolved m ->
  (forall e,
     fst (operationTableManager_initialize m localStore (objects s) (ext s))
       = Rejected e ->
     fst (initialize localStore s) = Rejected e /\
     ctx (snd (initialize localStore s)) =
       set_operationTableManager m (ctx s)) /\
  (forall w1 pl ps pg e,
     operationTableManager_initialize m localStore (objects s) (ext s)
       = (Resolved tt, w1) ->
     createPullManager (client (ctx s)) localStore (Some m) = Resolved pl ->
     createPushManager (client (ctx s)) localStore (Some m) = Resolved ps ->
     createPurgeManager localStore = Resolved pg ->
     fst (pullManager_initialize pl (objects s) w1) = Rejected e ->
     fst (initialize localStore s) = Rejected e /\
     ctx (snd (initialize localStore s)) =
       set_purgeManager pg
         (set_pushManager ps
            (set_pullManager pl
               (set_store localStore
                  (set_operationTableManager m (ctx s)))))).
Proof.
  intros Ho Hm. destruct localStore; try discriminate.
  destruct s as [[cl st om pl0 ps0 pg0 ini ph] h w tr].
  split.
  - run_initialize. intros e. rewrite Hm.
    destruct (operationTableManager_initialize m (VRef l) h w) as [[[] | e'] w1];
      simpl; [discriminate |].
    intros He. inversion He. now split.
  - intros w1 pl ps pg e. run_initialize. rewrite Hm.
    intros E2 E3 E4 E5. rewrite E2, E3, E4, E5.
    destruct (pullManager_initialize pl h w1) as [[[] | e'] w2];
      simpl; [discriminate |].
    intros He. inversion He. now split.
Qed.

(** X12.  In every state a context goes through, from its construction on
    and whatever is called on it, an [isInitialized] that is true means that
    the store is set and the four managers exist: after
    [validateInitialization] the further check [if (!store)] cannot fail, and
    no manager is undefined when its method is called. *)
Theorem initialized_context_is_ready (s : state) :
  reachable s ->
  isInitialized (ctx s) = true ->
  truthy (store (ctx s)) = true /\
  (exists m, operationTableManager (ctx s) = Some m) /\
  (exists m, pullManager (ctx s) = Some m) /\
  (exists m, pushManager (ctx s) = Some m) /\
  (exists m, purgeManager (ctx s) = Some m).
Proof.
  intros Hr Hi. apply ready_initialized; [| assumption].
  now apply reachable_ready.
Qed.

(** X13.  On an initialized context, [pull] and [push] validate nothing
    themselves: whatever the arguments, each makes one call, to its manager,
    with the arguments as given ([push] with the context's current
    [pushHandler]), and settles as that call does.  [purge] does the same
    once its query is an object and [forcePurge] is null, undefined or a
    boolean; otherwise it rejects with a validation error and calls
    nothing. *)
Theorem sync_operations_delegate
    (s : state) (q qid st f : value) (mpull mpush mpurge : handle) :
  isInitialized (ctx s) = true ->
  pullManager (ctx s) = Some mpull ->
  pushManager (ctx s) = Some mpush ->
  purgeManager (ctx s) = Some mpurge ->
  pull q qid st s =
    (fst (pullManager_pull mpull q qid st (objects s) (ext s)),
     mkState (ctx s) (objects s)
             (snd (pullManager_pull mpull q qid st (objects s) (ext s)))
             (trace s ++ [EvPull q qid st])) /\
  push s =
    (fst (pushManager_push mpush (pushHandler (ctx s)) (objects s) (ext s)),
     mkState (ctx s) (objects s)
             (snd (pushManager_push mpush (pushHandler (ctx s)) (objects s) (ext s)))
             (trace s ++ [EvPush (pushHandler (ctx s))])) /\
  (if valid_purge_arguments q f
   then purge q f s =
          (fst (purgeManager_purge mpurge q f (objects s) (ext s)),
           mkState (ctx s) (objects s)
                   (snd (purgeManager_purge mpurge q f (objects s) (ext s)))
                   (trace s ++ [EvPurge q f]))
   else exists e, purge q f s = (Rejected e, s) /\ is_validation_error e = true).
Proof.
  intros Hi Hpl Hps Hpg. split; [| split].
  - unfold pull, taskRunner.run. rewrite guarded_initialized by assumption.
    unfold bind, get_ctx, the_manager, call. simpl. now rewrite Hpl.
  - unfold push, taskRunner.run. rewrite guarded_initialized by assumption.
    unfold bind, get_ctx, the_manager, call. simpl. now rewrite Hps.
  - destruct (valid_purge_arguments q f) eqn:Hv.
    + unfold valid_purge_arguments in Hv.
      unfold purge, taskRunner.run, validateInitialization, bind, lift, ret,
        throw, get_ctx, the_manager, call, Validate.isObject, Validate.notNull,
        Validate.isBool, Validate.check.
      destruct q, f; simpl in *; try discriminate;
        rewrite Hi; simpl; now rewrite Hpg.
    + destruct (purge_invalid_arguments q f s Hv) as (which & name & ->).
      eauto.
Qed.

Lemma initialize_installs (s : state) (localStore v : value) :
  fst (initialize localStore s) = Resolved v ->
  exists m pl ps pg,
    createOperationTableManager localStore = Resolved m /\
    createPullManager (client (ctx s)) localStore (Some m) = Resolved pl /\
    createPushManager (client (ctx s)) localStore (Some m) = Resolved ps /\
    createPurgeManager localStore = Resolved pg /\
    ctx (snd (initialize localStore s)) =
      mkContext (client (ctx s)) localStore (Some m) (Some pl) (Some ps)
                (Some pg) true (pushHandler (ctx s)) /\
    objects (snd (initialize localStore s)) = objects s.
Proof.
  destruct s as [[cl st om pl0 ps0 pg0 ini ph] h w tr].
  destruct localStore; run_initialize; try discriminate.
  destruct (createOperationTableManager (VRef l)) as [m | e] eqn:E1;
    [| discriminate].
  destruct (operationTableManager_initialize m (VRef l) h w)
    as [[[] | e] w1]; [| discriminate].
  destruct (createPullManager cl (VRef l) (Some m)) as [pl | e] eqn:E3;
    [| discriminate].
  destruct (createPushManager cl (VRef l) (Some m)) as [ps | e] eqn:E4;
    [| discriminate].
  destruct (createPurgeManager (VRef l)) as [pg | e] eqn:E5; [| discriminate].
  destruct (pullManager_initialize pl h w1) as [[[] | e] w2]; [| discriminate].
  intros _. exists m, pl, ps, pg. repeat split; assumption.
Qed.

(** X14.  When [initialize(localStore)] resolves, the context holds
    [localStore] as its store and the four managers just created over it, in
    place of whatever it held before, with [isInitialized] true; the client
    and the push handler are kept.  The operations that follow therefore go
    to [localStore]: a [lookup] with valid arguments resolves or rejects as
    [localStore]'s own lookup does. *)
Theorem initialize_installs_the_store
    (s : state) (localStore v t id f : value) :
  fst (initialize localStore s) = Resolved v ->
  valid_table_name t = true ->
  Validate.validId id = true ->
  (exists m pl ps pg,
     createOperationTableManager localStore = Resolved m /\
     createPullManager (client (ctx s)) localStore (Some m) = Resolved pl /\
     createPushManager (client (ctx s)) localStore (Some m) = Resolved ps /\
     createPurgeManager localStore = Resolved pg /\
     ctx (snd (initialize localStore s)) =
       mkContext (client (ctx s)) localStore (Some m) (Some pl) (Some ps)
                 (Some pg) true (pushHandler (ctx s))) /\
  fst (lookup t id f (snd (initialize localStore s))) =
    store_lookup localStore t id f (objects s)
                 (ext (snd (initialize localStore s))).
Proof.
  intros Hv Ht Hid.
  destruct (initialize_installs s localStore v Hv)
    as (m & pl & ps & pg & E1 & E3 & E4 & E5 & Hc & Ho).
  split; [exists m, pl, ps, pg; repeat split; assumption |].
  destruct (proj1 (initialize_resolved s localStore) (ex_intro _ v Hv))
    as (_ & _ & _ & _ & _ & _ & Hobj & _).
  destruct (valid_table_name_string _ Ht) as (tn & -> & Htn).
  set (s' := snd (initialize localStore s)) in *.
  unfold lookup, Platform.async, validateInitialization, bind, lift, ret,
    throw, get_ctx, ask, Validate.isString, Validate.notNullOrEmpty,
    Validate.isValidId, Validate.check.
  destruct localStore; try discriminate.
  rewrite Hc. simpl. rewrite Htn, Hid. simpl. rewrite Hc. simpl.
  rewrite Ho, Hc. reflexivity.
Qed.

(** X15.  Construction fails, with a validation error, exactly when the
    client is null or undefined; a context that has been constructed has no
    store and no manager and is not initialized, so that whatever the objects
    and the collaborators are, every operation on it rejects with the
    not-initialized error ([purge] provided its arguments pass its checks)
    and changes nothing. *)
Theorem new_context_is_uninitialized
    (cl : value) (h : heap) (w : world) (i : invocation) :
  (Ext.isNull cl = true ->
   exists e, MobileServiceSyncContext cl = Rejected e /\
             is_validation_error e = true) /\
  (Ext.isNull cl = false ->
   MobileServiceSyncContext cl = Resolved (new_context cl) /\
   (refused_on_arguments i = false ->
    invoke i (mkState (new_context cl) h w []) =
      (Rejected UsedBeforeInitialized, mkState (new_context cl) h w []))).
Proof.
  unfold MobileServiceSyncContext, Validate.notNull, Validate.check. split.
  - intros ->. simpl. eauto.
  - intros ->. simpl. split; [reflexivity |].
    intros Hv. now apply invoke_uninitialized.
Qed.
End Properties.

(** * The sync context over the specification's collaborators *)

Lemma concerns_key (t id : value) (p : Model.pending) :
  Model.concerns t id p = true <-> Model.key p = (t, id).
Proof.
  unfold Model.concerns, Model.key. rewrite andb_true_iff.
  rewrite !bool_decide_eq_true. split.
  - intros [-> ->]. reflexivity.
  - intros H. now inversion H.
Qed.

Lemma filter_concerns_absent (t id : value) (log : list Model.pending) :
  (t, id) ∉ List.map Model.key log ->
  List.filter (Model.concerns t id) log = [].
Proof.
  induction log as [| q rest IH]; simpl; intros Hn; [reflexivity |].
  destruct (Model.concerns t id q) eqn:E.
  - apply concerns_key in E. exfalso. apply Hn. rewrite E. left.
  - apply IH. intros Hin. apply Hn. now right.
Qed.

(** Writing the entry of a record that has one leaves it with exactly one. *)
Lemma filter_put (t id : value) (p p' : Model.pending) (log : list Model.pending) :
  Model.one_per_record log ->
  Model.pending_for t id log = Some p ->
  Model.key p' = (t, id) ->
  List.filter (Model.concerns t id) (Model.put p' log) = [p'].
Proof.
  unfold Model.one_per_record, Model.pending_for.
  intros Hnd Hf Hk.
  assert (Hp' : Model.concerns t id p' = true) by now apply concerns_key.
  assert (Ht : Model.tableName p' = t) by now inversion Hk.
  assert (Hi : Model.recordId p' = id) by now inversion Hk.
  induction log as [| q rest IH]; simpl in *; [discriminate |].
  rewrite Ht, Hi. apply NoDup_cons in Hnd as [Hq Hnd].
  destruct (Model.concerns t id q) eqn:E; simpl.
  - rewrite Hp'. f_equal. apply filter_concerns_absent.
    apply concerns_key in E. now rewrite <- E.
  - rewrite E. now apply IH.
Qed.

Lemma about_replay (t id : value) (h : heap) (w : Model.memory) (p : Model.pending) :
  Model.about t id (Model.replay h w p) = Model.concerns t id p.
Proof. reflexivity. Qed.

Lemma filter_replay (t id : value) (h : heap) (w : Model.memory)
    (log : list Model.pending) :
  List.filter (Model.about t id) (List.map (Model.replay h w) log) =
  List.map (Model.replay h w) (List.filter (Model.concerns t id) log).
Proof.
  induction log as [| q rest IH]; simpl; [reflexivity |].
  rewrite about_replay. destruct (Model.concerns t id q); simpl; now rewrite IH.
Qed.

(** *** At most one pending operation per record *)

Lemma keys_put (p : Model.pending) (log : list Model.pending) (k : value * value) :
  k ∈ List.map Model.key (Model.put p log) ->
  k = Model.key p \/ k ∈ List.map Model.key log.
Proof.
  induction log as [| q rest IH]; simpl.
  - intros H. apply list_elem_of_singleton in H. now left.
  - destruct (Model.concerns _ _ q) eqn:E; simpl; intros H.
    + apply elem_of_cons in H as [-> | H]; [now left |].
      right. now right.
    + apply elem_of_cons in H as [-> | H]; [right; left |].
      destruct (IH H) as [-> | Hin]; [now left | right; now right].
Qed.

Lemma put_one_per_record (p : Model.pending) (log : list Model.pending) :
  Model.one_per_record log -> Model.one_per_record (Model.put p log).
Proof.
  unfold Model.one_per_record.
  induction log as [| q rest IH]; simpl; intros Hnd.
  - apply NoDup_singleton.
  - apply NoDup_cons in Hnd as [Hq Hnd].
    destruct (Model.concerns _ _ q) eqn:E; simpl.
    + apply concerns_key in E. apply NoDup_cons. split; [| assumption].
      assert (Hk : Model.key p = Model.key q) by (rewrite E; reflexivity).
      rewrite Hk. exact Hq.
    + apply NoDup_cons. split; [| now apply IH].
      intros Hin. apply keys_put in Hin as [Hk | Hin]; [| now apply Hq].
      assert (Model.concerns (Model.tableName p) (Model.recordId p) q = true)
        by (apply concerns_key; exact Hk).
      congruence.
Qed.

Lemma filter_one_per_record (f : Model.pending -> bool) (log : list Model.pending) :
  Model.one_per_record log -> Model.one_per_record (List.filter f log).
Proof.
  unfold Model.one_per_record.
  induction log as [| q rest IH]; simpl; intros Hnd; [assumption |].
  apply NoDup_cons in Hnd as [Hq Hnd].
  destruct (f q); simpl; [| now apply IH].
  apply NoDup_cons. split; [| now apply IH].
  intros Hin. apply Hq.
  clear -Hin. induction rest as [| r rest IH]; simpl in *; [assumption |].
  destruct (f r); simpl in *.
  - apply elem_of_cons in Hin as [Heq | Hin]; apply elem_of_cons; auto.
  - apply elem_of_cons. auto.
Qed.

Lemma apply_batch_one_per_record
    (h : heap) (b : list (batch_entry Model.log_entry)) (w w' : Model.memory) :
  Model.apply_batch h b w = Some w' ->
  Model.one_per_record (Model.operations w) ->
  Model.one_per_record (Model.operations w').
Proof.
  revert w. induction b as [| e rest IH]; simpl; intros w Hb Hw.
  - inversion Hb; subst; assumption.
  - destruct (Model.apply_entry h e w) as [w1 |] eqn:E; [| discriminate].
    apply (IH w1 Hb).
    destruct e as [t [ | | | | | l] | t id | [q | t id]]; simpl in E;
      inversion E; subst; simpl; try assumption.
    + now apply put_one_per_record.
    + now apply filter_one_per_record.
Qed.

Lemma keeps_refl (P : world -> Prop) (s : state) : keeps P s s.
Proof. intros H. exact H. Qed.

Lemma keeps_trans (P : world -> Prop) (s1 s2 s3 : state) :
  keeps P s1 s2 -> keeps P s2 s3 -> keeps P s1 s3.
Proof. unfold keeps. auto. Qed.

Lemma keeps_call {A} (P : world -> Prop) (e : event logging)
    (f : heap -> world -> outcome A * world) :
  (forall h w, P w -> P (snd (f h w))) -> respects (keeps P) (call e f).
Proof. intros Hf s Hs. simpl. now apply Hf. Qed.

Lemma keeps_ask {A} (P : world -> Prop) (e : event logging)
    (f : heap -> world -> outcome A) :
  respects (keeps P) (ask e f).
Proof. intros s Hs. exact Hs. Qed.

Lemma keeps_make {A} (P : world -> Prop) (e : event logging) (r : outcome A) :
  respects (keeps P) (make e r).
Proof. intros s Hs. exact Hs. Qed.

Lemma keeps_modify_ctx (P : world -> Prop) (f : context -> context) :
  respects (keeps P) (modify_ctx f).
Proof. intros s Hs. exact Hs. Qed.

Lemma keeps_set_id (P : world -> Prop) (v x : value) :
  respects (keeps P) (set_id v x).
Proof. intros s Hs. unfold set_id. now destruct v. Qed.

Lemma keeps_call_uuid (P : world -> Prop) :
  (forall w, P w -> P (snd (uuid_v4 w))) -> respects (keeps P) call_uuid.
Proof. intros Hf s Hs. simpl. now apply Hf. Qed.

Ltac keeps_step :=
  lazymatch goal with
  | |- forall _, _ => intro
  | |- respects _ (let _ := _ in _) => cbv zeta
  | |- respects _ (bind _ _) =>
      apply (respects_bind _ (keeps_trans Model.one_pending_each))
  | |- respects _ (ret _) => apply (respects_ret _ (keeps_refl Model.one_pending_each))
  | |- respects _ (throw _) =>
      apply (respects_throw _ (keeps_refl Model.one_pending_each))
  | |- respects _ (lift _) => apply (respects_lift _ (keeps_refl Model.one_pending_each))
  | |- respects _ get_ctx =>
      apply (respects_get_ctx _ (keeps_refl Model.one_pending_each))
  | |- respects _ (get_id _) =>
      apply (respects_get_id _ (keeps_refl Model.one_pending_each))
  | |- respects _ (the_manager _ _) =>
      apply (respects_the_manager _ (keeps_refl Model.one_pending_each))
  | |- respects _ validateInitialization =>
      apply (respects_validateInitialization _ (keeps_refl Model.one_pending_each))
  | |- respects _ (if _ then _ else _) => apply respects_if
  | |- respects _ (ask _ _) => apply keeps_ask
  | |- respects _ (make _ _) => apply keeps_make
  | |- respects _ (modify_ctx _) => apply keeps_modify_ctx
  | |- respects _ (set_id _ _) => apply keeps_set_id
  | |- respects _ (call _ _) => apply keeps_call
  | |- respects _ call_uuid => apply keeps_call_uuid
  end.

Ltac keeps_steps := repeat keeps_step.

(** Every call on the context keeps the pending operations one per record. *)
Lemma perform_one_per_record (u : user_call) :
  respects (keeps Model.one_pending_each) (perform u).
Proof.
  destruct u as [localStore | i | hd]; simpl.
  - unfold initialize, Platform.async. keeps_steps; simpl; try assumption.
  - destruct i; simpl;
      unfold insert, update, del, lookup, read, pull, push, purge,
        upsertWithLogging, taskRunner.run, Platform.async;
      keeps_steps; simpl; try assumption.
    all: unfold Model.one_pending_each in *.
    all: try (unfold Model.loggingOperation;
              repeat match goal with
                     | |- context [match ?x with _ => _ end] => destruct x
                     end; simpl; assumption).
    all: try (unfold Model.executeBatch;
              match goal with
              | |- context [Model.apply_batch ?h ?b ?w] =>
                  destruct (Model.apply_batch h b w) eqn:E; simpl;
                  [eapply apply_batch_one_per_record; eassumption | assumption]
              end).
    + apply NoDup_nil_2.
    + unfold Model.purge.
      match goal with |- context [if ?c then _ else _] => destruct c end;
        simpl; [assumption | now apply filter_one_per_record].
  - keeps_steps.
Qed.

(** C2.  Over the specification's operation table, store and push: when the
    record of an instance has a pending 'insert', an [update] of it resolves
    and leaves exactly one pending operation for that record, still an
    'insert'; the [push] that follows sends, for that record, exactly one
    request, a create that carries the instance as updated. *)
Theorem pending_insert_absorbs_update
    (s : state) (t : value) (l : loc) (p : Model.pending) :
  ready (ctx s) = true ->
  isInitialized (ctx s) = true ->
  valid_table_name t = true ->
  Validate.validId (property (objects s) (VRef l) "id") = true ->
  Model.one_per_record (Model.operations (ext s)) ->
  Model.pending_for t (property (objects s) (VRef l) "id")
                    (Model.operations (ext s)) = Some p ->
  Model.pendingAction p = Insert ->
  fst (update t (VRef l) s) = Resolved (VRef l) /\
  List.filter (Model.concerns t (property (objects s) (VRef l) "id"))
              (Model.operations (ext (snd (update t (VRef l) s)))) =
    [Model.mkPending t (property (objects s) (VRef l) "id") Insert
                     (Model.logicalOrder p)] /\
  fst (push (snd (update t (VRef l) s))) = Resolved VUndefined /\
  exists new,
    Model.sent (ext (snd (push (snd (update t (VRef l) s))))) =
      Model.sent (ext s) ++ new /\
    List.filter (Model.about t (property (objects s) (VRef l) "id")) new =
      [Model.mkRequest Model.Create t (property (objects s) (VRef l) "id")
                       (Some (fields (objects s) l))].
Proof.
  intros Hr Hi Ht Hid Hone Hp Ha.
  destruct (ready_initialized _ Hr Hi) as (Hs & (m & Hm) & _ & (pm & Hpm) & _).
  set (id := property (objects s) (VRef l) "id") in *.
  set (p' := Model.mkPending t id Insert (Model.logicalOrder p)).
  assert (Hlook : exists r,
    store_lookup (store (ctx s)) t id (VBool true) (objects s) (ext s) = Resolved r).
  { simpl. unfold Model.lookup. destruct (Model.records (ext s) !! (t, id)); eauto. }
  destruct Hlook as [r Hlook].
  assert (Hlog :
    getLoggingOperation m t Update (VRef l) (objects s) (ext s) =
      (Resolved (Model.LogPut p'), ext s)).
  { simpl. unfold Model.loggingOperation. fold id. rewrite Hp, Ha. reflexivity. }
  rewrite (update_valid s t l m r (Model.LogPut p') (ext s)) by assumption.
  simpl. unfold Model.executeBatch. simpl. fold id.
  split; [reflexivity |].
  split.
  { apply (filter_put t id p p'); [assumption | assumption | reflexivity]. }
  unfold push, taskRunner.run.
  rewrite guarded_initialized by assumption.
  unfold bind, get_ctx, the_manager, call. simpl. rewrite Hpm. simpl.
  split; [reflexivity |].
  eexists. split; [reflexivity |].
  rewrite filter_replay.
  rewrite (filter_put t id p p') by (assumption || reflexivity).
  simpl. unfold Model.replay. simpl.
  rewrite lookup_insert_eq. reflexivity.
Qed.

(** * The properties at work on the small application *)

(** C1: before [initialize], [purge(null)] is rejected by its argument check,
    not with the not-initialized error. *)
Lemma purge_null_before_initialize :
  isInitialized (ctx App.fresh) = false /\
  fst (invoke (CallPurge VNull VUndefined) App.fresh) =
    Rejected (Invalid "notNull" "query") /\
  Invalid "notNull" "query" <> UsedBeforeInitialized.
Proof. repeat split. discriminate. Qed.

(** C8: before [initialize], [update] and [del] of an instance without an id
    are rejected with the not-initialized error, which is no validation
    error. *)
Lemma update_del_without_id_before_initialize :
  lacks_id (objects App.fresh) App.item_a = true /\
  fst (update App.todo App.item_a App.fresh) = Rejected UsedBeforeInitialized /\
  fst (del App.todo App.item_a App.fresh) = Rejected UsedBeforeInitialized /\
  is_validation_error UsedBeforeInitialized = false.
Proof. repeat split. Qed.

Lemma uninitialized_operation_rejects_witness :
  snd (invoke (CallInsert App.todo App.item_a) App.fresh) = App.fresh /\
  exists e, fst (invoke (CallInsert App.todo App.item_a) App.fresh) = Rejected e /\
            e = UsedBeforeInitialized.
Proof.
  apply (uninitialized_operation_rejects (CallInsert App.todo App.item_a) App.fresh).
  reflexivity.
Defined.

Lemma purge_validates_before_initialization_witness :
  (exists e, fst (purge VNull VUndefined App.fresh) = Rejected e /\
             is_validation_error e = true /\ e <> UsedBeforeInitialized) /\
  fst (insert App.todo App.item_a App.fresh) = Rejected UsedBeforeInitialized /\
  fst (update App.todo App.item_a App.fresh) = Rejected UsedBeforeInitialized /\
  fst (del App.todo App.item_a App.fresh) = Rejected UsedBeforeInitialized.
Proof.
  apply (purge_validates_before_initialization App.fresh VNull VUndefined
           App.todo App.item_a); reflexivity.
Defined.

Lemma update_del_require_id_witness :
  (exists e, update App.todo App.item_a App.started = (Rejected e, App.started) /\
             is_validation_error e = true) /\
  (exists e, del App.todo App.item_a App.started = (Rejected e, App.started) /\
             is_validation_error e = true).
Proof.
  apply (update_del_require_id App.started App.todo App.item_a); reflexivity.
Defined.

Lemma insert_existing_record_rejected_witness :
  insert App.todo App.item_b App.inserted =
    (Rejected (RecordExists (VStr "uuid-0") App.todo),
     mkState (ctx App.inserted) (objects App.inserted) (ext App.inserted)
             (trace App.inserted ++
                [EvStoreLookup App.todo (VStr "uuid-0") (VBool true)])).
Proof.
  apply (insert_existing_record_rejected App.inserted App.todo App.item_b App.item_a);
    reflexivity.
Defined.

Lemma insert_assigns_id_and_writes_one_batch_witness :
  fst (insert App.todo App.item_a App.started) = Resolved App.item_a /\
  lacks_id (objects App.started) App.item_a = true /\
  ((lacks_id (objects App.started) App.item_a = true ->
    property (objects (snd (insert App.todo App.item_a App.started))) App.item_a "id" =
      VStr (fst (uuid_v4 (ext App.started))) /\
    exists rest,
      trace (snd (insert App.todo App.item_a App.started)) =
        trace App.started ++ EvUuid (fst (uuid_v4 (ext App.started))) :: rest) /\
   (forall v, fst (insert App.todo App.item_a App.started) = Resolved v ->
    v = App.item_a /\
    exists m op,
      operationTableManager (ctx App.started) = Some m /\
      fst (getLoggingOperation m App.todo Insert App.item_a
             (objects (snd (insert App.todo App.item_a App.started)))
             (ext (if lacks_id (objects App.started) App.item_a
                   then with_generated_id 3%positive App.started else App.started)))
        = Resolved op /\
      trace (snd (insert App.todo App.item_a App.started)) =
        trace App.started ++
        (if lacks_id (objects App.started) App.item_a
         then [EvUuid (fst (uuid_v4 (ext App.started)))] else []) ++
        [EvStoreLookup App.todo
           (property (objects (snd (insert App.todo App.item_a App.started)))
                     App.item_a "id")
           (VBool true);
         EvGetLoggingOperation App.todo Insert App.item_a;
         EvExecuteBatch [BUpsert App.todo App.item_a; BLogging op]])).
Proof.
  split; [reflexivity |]. split; [reflexivity |].
  apply (insert_assigns_id_and_writes_one_batch App.started App.todo 3%positive);
    reflexivity.
Defined.

Lemma update_overwrites_witness :
  store_lookup (store (ctx App.started)) App.todo (VStr "k1") (VBool true)
               (objects App.started) (ext App.started) = Resolved VUndefined /\
  fst (update App.todo App.item_c App.started) = Resolved App.item_c /\
  update App.todo (VRef 5%positive) App.started =
    (match fst (store_executeBatch (store (ctx App.started))
                  [BUpsert App.todo (VRef 5%positive);
                   BLogging (Model.LogPut
                               (Model.mkPending App.todo (VStr "k1") Update 0))]
                  (objects App.started) (ext App.started)) with
     | Resolved _ => Resolved (VRef 5%positive)
     | Rejected e => Rejected e
     end,
     mkState (ctx App.started) (objects App.started)
       (snd (store_executeBatch (store (ctx App.started))
               [BUpsert App.todo (VRef 5%positive);
                BLogging (Model.LogPut
                            (Model.mkPending App.todo (VStr "k1") Update 0))]
               (objects App.started) (ext App.started)))
       (trace App.started ++
          [EvStoreLookup App.todo
             (property (objects App.started) (VRef 5%positive) "id") (VBool true);
           EvGetLoggingOperation App.todo Update (VRef 5%positive);
           EvExecuteBatch
             [BUpsert App.todo (VRef 5%positive);
              BLogging (Model.LogPut
                          (Model.mkPending App.todo (VStr "k1") Update 0))]])).
Proof.
  split; [reflexivity |]. split; [reflexivity |].
  apply (update_overwrites App.started App.todo 5%positive App.localStore VUndefined
           (Model.LogPut (Model.mkPending App.todo (VStr "k1") Update 0))
           (ext App.started));
    reflexivity.
Defined.

Lemma lookup_read_through_witness :
  quiet App.inserted (snd (lookup App.todo (VStr "uuid-0") VUndefined App.inserted)) /\
  quiet App.inserted (snd (read App.query App.inserted)) /\
  (fst (lookup App.todo (VStr "uuid-0") VUndefined App.inserted) = Resolved App.item_a /\
   trace (snd (lookup App.todo (VStr "uuid-0") VUndefined App.inserted)) =
     trace App.inserted ++ [EvStoreLookup App.todo (VStr "uuid-0") VUndefined]) /\
  (fst (read App.query App.inserted) = Resolved (VNum 1) /\
   trace (snd (read App.query App.inserted)) =
     trace App.inserted ++ [EvStoreRead App.query]).
Proof.
  apply (lookup_read_through App.inserted App.todo (VStr "uuid-0") VUndefined
           App.query); reflexivity.
Defined.

Lemma insert_mutates_its_argument_witness :
  fst (insert App.todo App.item_a App.started) = Resolved App.item_a /\
  objects (snd (insert App.todo App.item_a App.started)) =
    <[3%positive := <["id" := VStr (fst (uuid_v4 (ext App.started)))]>
                      (fields (objects App.started) 3%positive)]>
      (objects App.started) /\
  property (objects (snd (insert App.todo App.item_a App.started))) App.item_a "id" =
    VStr (fst (uuid_v4 (ext App.started))) /\
  (forall v, fst (insert App.todo App.item_a App.started) = Resolved v -> v = App.item_a).
Proof.
  split; [reflexivity |].
  apply (insert_mutates_its_argument App.started App.todo 3%positive); reflexivity.
Defined.

Lemma the_pending_insert_alone :
  Model.one_per_record (Model.operations (ext App.inserted)).
Proof. vm_compute. apply NoDup_singleton. Qed.

Lemma pending_insert_absorbs_update_witness :
  fst (update App.todo App.item_b App.inserted) = Resolved App.item_b /\
  List.filter (Model.concerns App.todo (VStr "uuid-0"))
              (Model.operations (ext App.updated)) =
    [Model.mkPending App.todo (VStr "uuid-0") Insert 0] /\
  fst (push App.updated) = Resolved VUndefined /\
  exists new,
    Model.sent (ext App.pushed) = Model.sent (ext App.inserted) ++ new /\
    List.filter (Model.about App.todo (VStr "uuid-0")) new =
      [Model.mkRequest Model.Create App.todo (VStr "uuid-0")
         (Some (<["id" := VStr "uuid-0"]> {["text" := VStr "b"]}))].
Proof.
  apply (pending_insert_absorbs_update App.inserted App.todo 4%positive
           (Model.mkPending App.todo (VStr "uuid-0") Insert 0));
    try reflexivity.
  apply the_pending_insert_alone.
Defined.

(** * Further properties at work *)

Ltac computed := vm_compute; reflexivity.

(** Discharges the premises of [H], one after the other, by computation. *)
Ltac premises_computed H :=
  repeat match type of H with
         | ?P -> _ =>
             let h := fresh "h" in
             assert (h : P) by computed; specialize (H h); clear h
         end.

Lemma del_writes_one_batch_without_lookup_witness :
  del App.todo App.item_b App.inserted =
    (fst (store_executeBatch (store (ctx App.inserted))
            [BDelete App.todo (property (objects App.inserted) App.item_b "id");
             BLogging (Model.LogRemove App.todo (VStr "uuid-0"))]
            (objects App.inserted) (ext App.inserted)),
     mkState (ctx App.inserted) (objects App.inserted)
       (snd (store_executeBatch (store (ctx App.inserted))
               [BDelete App.todo (property (objects App.inserted) App.item_b "id");
                BLogging (Model.LogRemove App.todo (VStr "uuid-0"))]
               (objects App.inserted) (ext App.inserted)))
       (trace App.inserted ++
          [EvGetLoggingOperation App.todo Delete App.item_b;
           EvExecuteBatch
             [BDelete App.todo (property (objects App.inserted) App.item_b "id");
              BLogging (Model.LogRemove App.todo (VStr "uuid-0"))]])).
Proof.
  pose proof (del_writes_one_batch_without_lookup App.inserted App.todo
                App.item_b App.localStore) as H.
  premises_computed H. destruct H as [Hok _].
  apply Hok. computed.
Defined.

Lemma update_stops_at_the_first_failure_witness :
  update App.todo (VRef 5%positive) Cases.removed =
    (Rejected (External (VStr "operation collision")),
     mkState (ctx Cases.removed) (objects Cases.removed) (ext Cases.removed)
       (trace Cases.removed ++
          [EvStoreLookup App.todo
             (property (objects Cases.removed) (VRef 5%positive) "id")
             (VBool true);
           EvGetLoggingOperation App.todo Update (VRef 5%positive)])).
Proof.
  pose proof (update_stops_at_the_first_failure Cases.removed App.todo
                5%positive App.localStore) as H.
  premises_computed H. destruct H as (_ & Hlog & _).
  apply (Hlog VUndefined); computed.
Defined.

Lemma insert_of_nothing_is_a_type_error_witness :
  insert App.todo VNull App.started = (Rejected (TypeError "id"), App.started).
Proof.
  pose proof (insert_of_nothing_is_a_type_error App.started App.todo VNull) as H.
  premises_computed H. exact H.
Defined.

Lemma insert_generates_id_before_validating_witness :
  exists e,
    insert (VStr "") (VRef 3%positive) App.started =
      (Rejected e, with_generated_id 3%positive App.started) /\
    is_validation_error e = true.
Proof.
  pose proof (insert_generates_id_before_validating App.started (VStr "")
                3%positive) as H.
  premises_computed H. exact H.
Defined.

Lemma failed_initialize_leaves_context_unusable_witness :
  @invoke Cases.faulty (CallLookup App.todo (VStr "k1") VUndefined)
          (snd (@initialize Cases.faulty App.localStore Cases.fresh_faulty)) =
    (Rejected UsedBeforeInitialized,
     snd (@initialize Cases.faulty App.localStore Cases.fresh_faulty)).
Proof.
  pose proof (@failed_initialize_leaves_context_unusable Cases.faulty
                Cases.fresh_faulty App.localStore
                (External (VStr "cursors unreadable"))
                (CallLookup App.todo (VStr "k1") VUndefined)) as H.
  premises_computed H. exact H.
Defined.

Lemma initialize_refuses_non_object_store_witness :
  exists e,
    initialize (VStr "store") App.fresh = (Rejected e, App.fresh) /\
    is_validation_error e = true.
Proof.
  pose proof (initialize_refuses_non_object_store App.fresh (VStr "store")) as H.
  premises_computed H. exact H.
Defined.

Lemma initialize_is_not_atomic_witness :
  fst (@initialize Cases.faulty App.localStore Cases.fresh_faulty) =
    Rejected (External (VStr "cursors unreadable")) /\
  ctx (snd (@initialize Cases.faulty App.localStore Cases.fresh_faulty)) =
    @set_purgeManager Cases.faulty App.localStore
      (@set_pushManager Cases.faulty App.localStore
         (@set_pullManager Cases.faulty App.localStore
            (@set_store Cases.faulty App.localStore
               (@set_operationTableManager Cases.faulty App.localStore
                  (ctx Cases.fresh_faulty))))).
Proof.
  pose proof (@initialize_is_not_atomic Cases.faulty Cases.fresh_faulty
                App.localStore App.localStore) as H.
  premises_computed H. destruct H as [_ Hlast].
  apply (Hlast Model.empty App.localStore App.localStore App.localStore
               (External (VStr "cursors unreadable")));
    computed.
Defined.

Lemma initialized_state_is_reachable :
  reachable
    (snd (perform (Initialize App.localStore)
            (mkState (new_context App.theClient) App.some_objects Model.empty []))).
Proof. apply reachable_step. apply (reachable_new App.theClient). reflexivity. Qed.

Lemma initialized_context_is_ready_witness :
  truthy (store (ctx
    (snd (perform (Initialize App.localStore)
            (mkState (new_context App.theClient) App.some_objects
                     Model.empty []))))) = true /\
  (exists m, operationTableManager (ctx
    (snd (perform (Initialize App.localStore)
            (mkState (new_context App.theClient) App.some_objects
                     Model.empty [])))) = Some m) /\
  (exists m, pullManager (ctx
    (snd (perform (Initialize App.localStore)
            (mkState (new_context App.theClient) App.some_objects
                     Model.empty [])))) = Some m) /\
  (exists m, pushManager (ctx
    (snd (perform (Initialize App.localStore)
            (mkState (new_context App.theClient) App.some_objects
                     Model.empty [])))) = Some m) /\
  (exists m, purgeManager (ctx
    (snd (perform (Initialize App.localStore)
            (mkState (new_context App.theClient) App.some_objects
                     Model.empty [])))) = Some m).
Proof.
  pose proof (initialized_context_is_ready _ initialized_state_is_reachable)
    as H.
  premises_computed H. exact H.
Defined.

Lemma sync_operations_delegate_witness :
  pull App.query VNull VUndefined App.inserted =
    (fst (pullManager_pull App.localStore App.query VNull VUndefined
            (objects App.inserted) (ext App.inserted)),
     mkState (ctx App.inserted) (objects App.inserted)
       (snd (pullManager_pull App.localStore App.query VNull VUndefined
               (objects App.inserted) (ext App.inserted)))
       (trace App.inserted ++ [EvPull App.query VNull VUndefined])) /\
  fst (purge App.query VUndefined App.inserted) =
    Rejected (External (VStr "PurgeConflictError")).
Proof.
  pose proof (sync_operations_delegate App.inserted App.query VNull VUndefined
                VUndefined App.localStore App.localStore App.localStore) as H.
  premises_computed H. destruct H as (Hpull & _ & Hpurge).
  split; [exact Hpull |].
  change (valid_purge_arguments App.query VUndefined) with true in Hpurge.
  rewrite Hpurge. computed.
Defined.

Lemma initialize_installs_the_store_witness :
  fst (lookup App.todo (VStr "k1") (VBool true)
              (snd (initialize App.localStore App.fresh))) =
    store_lookup App.localStore App.todo (VStr "k1") (VBool true)
                 (objects App.fresh)
                 (ext (snd (initialize App.localStore App.fresh))).
Proof.
  pose proof (initialize_installs_the_store App.fresh App.localStore VUndefined
                App.todo (VStr "k1") (VBool true)) as H.
  premises_computed H. destruct H as [_ Hl]. exact Hl.
Defined.

(** * MobileServiceLogin: properties *)

Section LoginProperties.
Context `{P : Login.Platform}.
Import Login.

Ltac lrun :=
  unfold lbind, lret, lthrow, llift, lget, record, set_loginState,
    set_currentUser, call_callback, toLowerCase, Login.notNull, Login.isString,
    Login.isObject, Login.notNullOrEmpty, Validate.notNull, Validate.isString,
    Validate.isObject, Validate.notNullOrEmpty, Validate.check in *.


Lemma lbind_rejected {A B} (m : L A) (k : A -> L B) (s s' : login_state) (e : error) :
  m s = (Rejected e, s') -> lbind m k s = (Rejected e, s').
Proof. intros H. unfold lbind. now rewrite H. Qed.

Lemma split_length (c : ascii) (s : string) :
  length (split c s) = S (occurrences c s).
Proof.
  induction s as [| a rest IH]; simpl; [reflexivity |].
  destruct (split c rest) as [| seg segs]; simpl in IH; [discriminate |].
  destruct (Ascii.eqb a c); simpl; simpl in IH; lia.
Qed.

Lemma lower_dot (c : ascii) :
  Ascii.eqb (lower c) "."%char = Ascii.eqb c "."%char.
Proof. destruct c as [[] [] [] [] [] [] [] []]; reflexivity. Qed.



Lemma occurrences_lowercase (s : string) :
  occurrences "."%char (lowercase s) = occurrences "."%char s.
Proof.
  induction s as [| c rest IH]; simpl; [reflexivity |].
  now rewrite lower_dot, IH.
Qed.

Lemma isAuthToken_string (s : string) :
  _isAuthToken (Data (VStr s)) = Nat.eqb (occurrences "."%char s) 2.
Proof.
  unfold _isAuthToken. rewrite split_length. simpl.
  destruct s as [| c rest]; simpl; [reflexivity |].
  reflexivity.
Qed.

(** X16.  [_isAuthToken] holds of exactly the strings with two dots in them
    (three segments, empty ones included, so that ".." counts), and of nothing
    that is not a string. *)
Theorem isAuthToken_counts_dots (a : arg) :
  _isAuthToken a =
    match a with
    | Data (VStr s) => Nat.eqb (occurrences "."%char s) 2
    | _ => false
    end.
Proof.
  destruct a as [[ | | b | n | s | l] | f];
    try apply isAuthToken_string;
    unfold _isAuthToken; simpl; rewrite ?andb_false_r; reflexivity.
Qed.

(** X17.  The short forms of [login] are the long form with the arguments
    put in their places: a function given as last argument in the place of
    the token or of [useSingleSignOn] is the callback, and a boolean in the
    place of the token is [useSingleSignOn]. *)
Theorem login_optional_arguments
    (provider token : arg) (k : nat) (b : bool) (callback u1 u2 : arg)
    (s : login_state) :
  Extensions.isNull u1 = true ->
  Extensions.isNull u2 = true ->
  login provider (Fn k) u1 u2 s = login provider null null (Fn k) s /\
  login provider token (Fn k) u2 s = login provider token null (Fn k) s /\
  login provider (Data (VBool b)) u1 callback s =
    login provider null (Data (VBool b)) callback s.
Proof.
  intros H1 H2. unfold login.
  rewrite H1, H2. simpl.
  split; [reflexivity |]. split.
  - destruct (Extensions.isNull token); reflexivity.
  - destruct (Extensions.isNull callback); simpl; rewrite ?H1; reflexivity.
Qed.

(** X18.  A provider that has the form of an authentication token, with no
    token beside it, is taken for the token: [login] posts it as it is, in
    its own case, whatever [useSingleSignOn] says, and neither tests nor sets
    the login in process. *)
Theorem login_with_a_token_as_provider
    (p : string) (token useSingleSignOn : arg) (k : nat) (s : login_state) :
  occurrences "."%char p = 2 ->
  Extensions.isNull token = true ->
  login (Data (VStr p)) token useSingleSignOn (Fn k) s =
    (Resolved tt,
     mkLogin (loginObjects s) (currentUser s) (ignoreFilters s) (inProcess s)
             (cancelCallback s)
             (happened s ++
                [EvTokenRequest (Data (VStr p)) (ignoreFilters s) (Fn k)])).
Proof.
  intros Hp Ht.
  assert (Hauth : _isAuthToken (Data (VStr p)) = true)
    by (rewrite isAuthToken_string, Hp; reflexivity).
  assert (Hne : String.eqb p "" = false) by (destruct p; [discriminate | reflexivity]).
  assert (Hb : Extensions.isBool token = false)
    by (destruct token as [[] |]; try discriminate; reflexivity).
  unfold login. simpl.
  destruct (Extensions.isNull useSingleSignOn); rewrite ?Hb, Ht, Hauth; simpl;
    unfold loginWithMobileServiceToken; lrun; simpl; rewrite Hne; reflexivity.
Qed.

(** X19.  [login] with neither a provider nor a token throws a validation
    error and starts nothing, whatever the other arguments are. *)
Theorem login_needs_provider_or_token
    (provider token useSingleSignOn callback : arg) (s : login_state) :
  Extensions.isNull provider = true ->
  Extensions.isNull token = true ->
  exists e,
    login provider token useSingleSignOn callback s = (Rejected e, s) /\
    is_validation_error e = true.
Proof.
  intros Hp Ht.
  assert (Hb : Extensions.isBool token = false)
    by (destruct token as [[] |]; try discriminate; reflexivity).
  assert (Hf : is_function token = false)
    by (destruct token; [reflexivity | discriminate]).
  assert (Ha : _isAuthToken provider = false)
    by (destruct provider as [[] |]; try discriminate; reflexivity).
  unfold login. rewrite Ht, Hf. simpl.
  destruct (Extensions.isNull callback);
    destruct (Extensions.isNull useSingleSignOn) eqn:Hs;
    try destruct (is_function useSingleSignOn); simpl;
    rewrite ?Hs, ?Hb, ?Ht, ?Ha, ?Hp; simpl;
    rewrite ?Hb, ?Ht, ?Ha, ?Hp; simpl;
    lrun; destruct token as [[] |]; try discriminate; simpl; eauto.
Qed.


Lemma not_a_token (p : string) :
  occurrences "."%char p <> 2 -> _isAuthToken (Data (VStr p)) = false.
Proof.
  intros Hp. rewrite isAuthToken_string. now apply Nat.eqb_neq.
Qed.

Ltac normalized callback :=
  unfold login;
  set (n := if Extensions.isNull callback then _ else _);
  destruct n as [[token' useSingleSignOn'] callback']; simpl;
  set (n := if Extensions.isNull useSingleSignOn' then _ else _);
  destruct n as [token'' useSingleSignOn'']; simpl.


(** X21.  In [login] the provider name windowsazureactivedirectory, in any
    case, stands for aad. *)
Theorem login_aad_alias
    (p : string) (token useSingleSignOn callback : arg) (s : login_state) :
  lowercase p = "windowsazureactivedirectory" ->
  login (Data (VStr p)) token useSingleSignOn callback s =
  login (Data (VStr "aad")) token useSingleSignOn callback s.
Proof.
  intros Hw.
  assert (Hp : _isAuthToken (Data (VStr p)) = false).
  { apply not_a_token. rewrite <- occurrences_lowercase, Hw. discriminate. }
  assert (Ha : _isAuthToken (Data (VStr "aad")) = false) by reflexivity.
  normalized callback.
  rewrite Hp, Ha, andb_false_r. simpl.
  destruct (Extensions.isNull token''); lrun; simpl; rewrite ?Hw; reflexivity.
Qed.


Lemma onLoginComplete_keeps_loginState
    (error : failure) (token : value) (callback : arg) (s : login_state) :
  inProcess (snd (onLoginComplete error token callback s)) = inProcess s /\
  cancelCallback (snd (onLoginComplete error token callback s)) = cancelCallback s.
Proof.
  unfold onLoginComplete. lrun. unfold set_property. simpl.
  destruct (no_failure error); simpl.
  - destruct (_ || _); simpl.
    + destruct (Extensions.isNull callback); simpl; [now split |].
      destruct callback; simpl; now split.
    + destruct (property (loginObjects s) token "user"); simpl; try now split.
      all: destruct (Extensions.isNull callback); simpl; [now split |].
      all: destruct callback; simpl; now split.
  - destruct (Extensions.isNull callback); simpl; [now split |].
    destruct callback; simpl; now split.
Qed.




(** X24.  After [loginWithLoginControl] the login is in process exactly
    when the platform's control has not called back yet, and then the cancel
    callback is the one of the platform's result, if it has one; when the
    control has called back within the call, no cancel callback is kept,
    whatever the platform's result has. *)
Theorem login_control_leaves_state
    (provider : string) (useSingleSignOn : arg) (prm : parameters)
    (callback : arg) (s : login_state) :
  let r := fst (platform_login provider (negb (truthy_arg useSingleSignOn)) prm
                               (loginObjects s)) in
  let s' := snd (loginWithLoginControl provider useSingleSignOn prm callback s) in
  match completion r with
  | None => inProcess s' = true /\ cancelCallback s' = resultCancel r
  | Some _ => inProcess s' = false /\ cancelCallback s' = None
  end.
Proof.
  intros r s'. subst r s'. unfold loginWithLoginControl.
  cbv beta iota zeta delta
    [lbind set_loginState lget record lret control_completed].
  cbn [loginObjects currentUser ignoreFilters inProcess cancelCallback happened].
  destruct (platform_login provider (negb (truthy_arg useSingleSignOn)) prm
                           (loginObjects s)) as [[[[error token] |] cancel] h'];
    cbn [fst snd completion resultCancel].
  - match goal with
    | |- context [onLoginComplete ?e ?t ?c ?s'] =>
        destruct (onLoginComplete_keeps_loginState e t c s') as [Hi Hc];
        destruct (onLoginComplete e t c s') as [[[] | e'] s2]
    end; cbn [snd inProcess cancelCallback] in Hi, Hc |- *.
    + rewrite Hi. destruct cancel; cbn [snd]; auto.
    + auto.
  - destruct cancel; cbn; auto.
Qed.

(** X25.  A login that comes back with an error, or without a token, leaves
    the current user and the objects as they were: the callback gets the
    error (the invalid-response-format message, when only the token is
    missing) and null for the user, and with no callback nothing happens at
    all. *)
Theorem failed_login_keeps_current_user
    (error : failure) (token response : value) (k : nat) (u : arg)
    (s : login_state) :
  Extensions.isNull u = true ->
  (no_failure error = false ->
     onLoginComplete error token (Fn k) s = record (EvCallback k error VNull) s /\
     onLoginResponse error response (Fn k) s = record (EvCallback k error VNull) s /\
     onLoginComplete error token u s = (Resolved tt, s)) /\
  (no_failure error = true ->
     onLoginComplete error VNull (Fn k) s =
       record (EvCallback k (Passed (VStr "MobileServiceLogin_InvalidResponseFormat"))
                          VNull) s).
Proof.
  intros Hu. split; intros He.
  - unfold onLoginResponse, onLoginComplete. lrun. rewrite He, Hu. simpl.
    rewrite ?He. auto.
  - unfold onLoginComplete. lrun. rewrite He. reflexivity.
Qed.

(** X26.  A login that succeeds makes the response's own user object the
    current user, writes the authentication token into that object, and
    hands the same object to the callback. *)
Theorem successful_login_sets_current_user
    (t u : loc) (a : string) (k : nat) (s : login_state) :
  property (loginObjects s) (VRef t) "user" = VRef u ->
  property (loginObjects s) (VRef t) "authenticationToken" = VStr a ->
  onLoginComplete (Passed VNull) (VRef t) (Fn k) s =
    (Resolved tt,
     mkLogin
       (<[u := <["mobileServiceAuthenticationToken" := VStr a]>
                 (fields (loginObjects s) u)]> (loginObjects s))
       (VRef u) (ignoreFilters s) (inProcess s) (cancelCallback s)
       (happened s ++ [EvCallback k (Passed VNull) (VRef u)])).
Proof.
  intros Hu Ha. unfold onLoginComplete. lrun.
  rewrite !Hu, !Ha. reflexivity.
Qed.

(** X27.  [overrideLoginWithBearerToken] with a non-empty string puts a new
    object, holding only the bearer token, in the place of the current user,
    changes no object there was and not the login in process, and calls the
    callback with no error and that object before it returns it.  It has
    already replaced the current user when a callback that is no function
    makes it throw. *)
Theorem override_replaces_current_user
    (t : string) (k : nat) (c : value) (s : login_state) :
  t <> "" ->
  let l := unused (loginObjects s) in
  let replaced :=
    mkLogin (<[l := {["bearerToken" := VStr t]}]> (loginObjects s))
            (VRef l) (ignoreFilters s) (inProcess s) (cancelCallback s)
            (happened s) in
  loginObjects s !! l = None /\
  overrideLoginWithBearerToken (Data (VStr t)) (Fn k) s =
    (Resolved (VRef l),
     snd (record (EvCallback k (Passed VNull) (VRef l)) replaced)) /\
  overrideLoginWithBearerToken (Data (VStr t)) (Data c) s =
    (Rejected (TypeError "callback"), replaced).
Proof.
  intros Ht l replaced.
  assert (He : String.eqb t "" = false) by now apply String.eqb_neq.
  split; [| split].
  - apply (not_elem_of_dom (D := gset loc)). subst l. unfold unused.
    apply is_fresh.
  - unfold overrideLoginWithBearerToken. lrun. simpl. rewrite He. reflexivity.
  - unfold overrideLoginWithBearerToken. lrun. simpl. rewrite He. reflexivity.
Qed.

(** X28.  [loginWithOptions] takes a function in the place of the options
    for the callback, and throws a validation error, with nothing started,
    when it is given no callback at all. *)
Theorem loginWithOptions_requires_callback
    (p : string) (options u : arg) (k : nat) (s : login_state) :
  Extensions.isNull u = true ->
  loginWithOptions (Data (VStr p)) (Fn k) u s =
    loginWithOptions (Data (VStr p)) u (Fn k) s /\
  (is_function options = false ->
   exists e,
     loginWithOptions (Data (VStr p)) options u s = (Rejected e, s) /\
     is_validation_error e = true).
Proof.
  intros Hu. split.
  - unfold loginWithOptions. lrun. rewrite Hu. simpl.
    destruct u as [[] |]; try discriminate; reflexivity.
  - intros Hf. unfold loginWithOptions. lrun. rewrite Hu, Hf, andb_false_r.
    simpl. eauto.
Qed.
End LoginProperties.

(** * The login properties at work *)

Lemma login_optional_arguments_witness :
  Login.login (Login.Data (VStr "facebook")) (Login.Fn 0)
              (Login.Data VUndefined) (Login.Data VUndefined) LoginApp.idle =
    Login.login (Login.Data (VStr "facebook")) Login.null Login.null
                (Login.Fn 0) LoginApp.idle /\
  Login.login (Login.Data (VStr "facebook")) (Login.Data LoginApp.theToken)
              (Login.Fn 0) (Login.Data VUndefined) LoginApp.idle =
    Login.login (Login.Data (VStr "facebook")) (Login.Data LoginApp.theToken)
                Login.null (Login.Fn 0) LoginApp.idle /\
  Login.login (Login.Data (VStr "facebook")) (Login.Data (VBool true))
              (Login.Data VUndefined) (Login.Fn 0) LoginApp.idle =
    Login.login (Login.Data (VStr "facebook")) Login.null
                (Login.Data (VBool true)) (Login.Fn 0) LoginApp.idle.
Proof.
  exact (login_optional_arguments
           (Login.Data (VStr "facebook")) (Login.Data LoginApp.theToken) 0 true
           (Login.Fn 0) (Login.Data VUndefined) (Login.Data VUndefined)
           LoginApp.idle eq_refl eq_refl).
Defined.

Lemma login_with_a_token_as_provider_witness :
  Login.login (Login.Data (VStr "eyJ.eyJ1.c2ln")) (Login.Data VUndefined)
              (Login.Data VUndefined) (Login.Fn 0) LoginApp.idle =
    (Resolved tt,
     Login.mkLogin LoginApp.some_objects VUndefined (Login.Data (VBool true))
                   false None
                   [Login.EvTokenRequest (Login.Data (VStr "eyJ.eyJ1.c2ln"))
                                         (Login.Data (VBool true)) (Login.Fn 0)]).
Proof.
  exact (login_with_a_token_as_provider
           "eyJ.eyJ1.c2ln" (Login.Data VUndefined) (Login.Data VUndefined) 0
           LoginApp.idle eq_refl eq_refl).
Defined.

Lemma login_needs_provider_or_token_witness :
  exists e,
    Login.login (Login.Data VNull) (Login.Data VUndefined)
                (Login.Data (VBool true)) (Login.Fn 0) LoginApp.idle =
      (Rejected e, LoginApp.idle) /\
    is_validation_error e = true.
Proof.
  exact (login_needs_provider_or_token
           (Login.Data VNull) (Login.Data VUndefined) (Login.Data (VBool true))
           (Login.Fn 0) LoginApp.idle eq_refl eq_refl).
Defined.


Lemma login_aad_alias_witness :
  Login.login (Login.Data (VStr "WindowsAzureActiveDirectory")) Login.null
              Login.null (Login.Fn 0) LoginApp.idle =
  Login.login (Login.Data (VStr "aad")) Login.null Login.null (Login.Fn 0)
              LoginApp.idle.
Proof.
  exact (login_aad_alias
           "WindowsAzureActiveDirectory" Login.null Login.null (Login.Fn 0)
           LoginApp.idle eq_refl).
Defined.



Lemma failed_login_keeps_current_user_witness :
  Login.onLoginComplete (Login.Passed (VStr "offline")) VNull Login.null
                        LoginApp.idle = (Resolved tt, LoginApp.idle) /\
  Login.onLoginComplete (Login.Passed VNull) VNull (Login.Fn 0) LoginApp.idle =
    Login.record
      (Login.EvCallback
         0 (Login.Passed (VStr "MobileServiceLogin_InvalidResponseFormat"))
         VNull)
      LoginApp.idle.
Proof.
  destruct (failed_login_keeps_current_user
              (Login.Passed (VStr "offline")) VNull VNull 0 Login.null
              LoginApp.idle eq_refl) as [Hfailed _].
  destruct (failed_login_keeps_current_user
              (Login.Passed VNull) VNull VNull 0 Login.null
              LoginApp.idle eq_refl) as [_ Hmissing].
  split.
  - exact (proj2 (proj2 (Hfailed eq_refl))).
  - exact (Hmissing eq_refl).
Defined.

Lemma successful_login_sets_current_user_witness :
  Login.onLoginComplete (Login.Passed VNull) LoginApp.theToken (Login.Fn 0)
                        LoginApp.idle =
    (Resolved tt,
     Login.mkLogin
       (<[3%positive :=
            <["mobileServiceAuthenticationToken" := VStr "t1"]>
              (fields LoginApp.some_objects 3%positive)]> LoginApp.some_objects)
       LoginApp.theUser (Login.Data (VBool true)) false None
       [Login.EvCallback 0 (Login.Passed VNull) LoginApp.theUser]).
Proof.
  exact (successful_login_sets_current_user
           2%positive 3%positive "t1" 0 LoginApp.idle eq_refl eq_refl).
Defined.

Lemma override_replaces_current_user_witness :
  Login.overrideLoginWithBearerToken (Login.Data (VStr "abc")) Login.null
                                     LoginApp.idle =
    (Rejected (TypeError "callback"),
     Login.mkLogin
       (<[Login.unused LoginApp.some_objects := {["bearerToken" := VStr "abc"]}]>
          LoginApp.some_objects)
       (VRef (Login.unused LoginApp.some_objects)) (Login.Data (VBool true))
       false None []).
Proof.
  assert (Hne : "abc" <> "") by discriminate.
  exact (proj2 (proj2 (override_replaces_current_user
                         "abc" 0 VNull LoginApp.idle Hne))).
Defined.

Lemma loginWithOptions_requires_callback_witness :
  exists e,
    Login.loginWithOptions (Login.Data (VStr "facebook"))
                           (Login.Data LoginApp.theToken) Login.null
                           LoginApp.idle = (Rejected e, LoginApp.idle) /\
    is_validation_error e = true.
Proof.
  exact (proj2 (loginWithOptions_requires_callback
                  "facebook" (Login.Data LoginApp.theToken) Login.null 0
                  LoginApp.idle eq_refl) eq_refl).
Defined.
